(** * StellarSwipe backend: entities, exception filter, logging interceptor

    A shallow embedding of the TypeScript sources

      - the [FeeTransaction] entity with its [FeeStatus] / [FeeTier] enums,
      - the [User] entity,
      - [GlobalExceptionFilter.catch],
      - [LoggingInterceptor.intercept],
      - the [appConfig] factory,

    together with the fee-settlement core that the specification describes
    on top of the [FeeTransaction] entity (money arithmetic, the status
    state machine and [requestRefund]).  The parts that have no source file
    are marked "Modelled from the spec". *)

From Stdlib Require Import ZArith Lia Ascii.
From stdpp Require Import gmap strings list fin_maps pretty.

Set Warnings "-register-all".
Local Open Scope string_scope.
Local Open Scope Z_scope.

(* ===================================================================== *)
(** * JavaScript values *)
(* ===================================================================== *)

(** A JavaScript value as far as the sources handle one: the JSON values
    plus [undefined].  Objects keep their keys in insertion order. *)
Inductive JValue : Type :=
| JUndefined
| JNull
| JBool (b : bool)
| JNum (n : Z)
| JStr (s : string)
| JArr (items : list JValue)
| JObj (fields : list (string * JValue)).

Abbreviation JObject := (list (string * JValue)).

(** [obj[key]]: the first binding of [key], [undefined] when there is none. *)
Fixpoint get_prop (key : string) (o : JObject) : JValue :=
  match o with
  | [] => JUndefined
  | (k, v) :: rest => if String.eqb k key then v else get_prop key rest
  end.

(** [key in obj] for own properties. *)
Definition has_key (key : string) (o : JObject) : bool :=
  existsb (fun kv => String.eqb (fst kv) key) o.

(** The key appears in the JSON text of [o]: [JSON.stringify] writes an
    own property unless its value is [undefined]. *)
Definition json_has (key : string) (o : JObject) : bool :=
  has_key key o && match get_prop key o with JUndefined => false | _ => true end.

(** JavaScript truthiness, as [||] and [&&] test it. *)
Definition truthy (v : JValue) : bool :=
  match v with
  | JUndefined | JNull => false
  | JBool b => b
  | JNum n => negb (n =? 0)
  | JStr s => negb (String.eqb s "")
  | JArr _ | JObj _ => true
  end.

(** [a || b] *)
Definition js_or (a b : JValue) : JValue := if truthy a then a else b.

(* ===================================================================== *)
(** * The ambient world: clock and logger *)
(* ===================================================================== *)

(** A [Date] is its epoch time in milliseconds. *)
Abbreviation Date := Z.

(** What the sources use of [@nestjs/common]'s exceptions. *)
Module Nest.

(** An [HttpException]: [getStatus()], [getResponse()] (a string or an
    object) and the inherited [message]. *)
Record HttpException := {
  getStatus : Z;
  getResponseBody : string + JObject;
  http_message : string;
}.

(** A value that was thrown and caught as [unknown]: an [HttpException],
    another [Error] with its [name], [message] and [stack], or any other
    value. *)
Inductive Thrown :=
| ThrownHttp (e : HttpException)
| ThrownError (name message : string) (stack : JValue)
| ThrownOther (v : JValue).

End Nest.

Inductive LogLevel := LDebug | LError.

(** A call of the logger: [logger.level(message, ...optionalParams)].  The
    only optional parameter the sources ever pass is a caught exception. *)
Record LogEntry := {
  log_level : LogLevel;
  log_context : string;
  log_message : string;
  log_params : list Nest.Thrown;
}.

(** The part of the process state the sources read or write: the system
    clock (the [n]-th reading it will give), how many readings were taken,
    the lines written through [Logger], and the status code of the
    response under way.  That response is a mutable object which the route
    handler is free to change while it runs, so a reading of
    [response.statusCode] is, like a reading of the clock, given from
    outside: the [n]-th one gives [w_statusCode n]. *)
Record World := {
  w_clock : nat -> Z;
  w_reads : nat;
  w_log : list LogEntry;
  w_statusCode : nat -> Z;
  w_status_reads : nat;
}.

(** Computations that read the clock and write log lines. *)
Definition M (A : Type) : Type := World -> A * World.

#[global] Instance M_ret : MRet M := fun A a w => (a, w).
#[global] Instance M_bind : MBind M :=
  fun A B k m w => let '(a, w') := m w in k a w'.

(** [new Date()] / [Date.now()] *)
Definition now : M Date :=
  fun w => (w_clock w (w_reads w),
            {| w_clock := w_clock w; w_reads := S (w_reads w); w_log := w_log w;
               w_statusCode := w_statusCode w; w_status_reads := w_status_reads w |}).

(** [response.statusCode], read from the response under way. *)
Definition read_statusCode : M Z :=
  fun w => (w_statusCode w (w_status_reads w),
            {| w_clock := w_clock w; w_reads := w_reads w; w_log := w_log w;
               w_statusCode := w_statusCode w;
               w_status_reads := S (w_status_reads w) |}).

(** [new Logger(context).error(msg, ...params)] and the like. *)
Definition log_with (lvl : LogLevel) (context msg : string)
    (params : list Nest.Thrown) : M unit :=
  fun w => (tt,
            {| w_clock := w_clock w; w_reads := w_reads w;
               w_log := w_log w ++ [{| log_level := lvl; log_context := context;
                                       log_message := msg; log_params := params |}];
               w_statusCode := w_statusCode w; w_status_reads := w_status_reads w |}).

(** [new Logger(context).debug(msg)] / [.error(msg)] *)
Definition log (lvl : LogLevel) (context msg : string) : M unit :=
  log_with lvl context msg [].

(** A world whose clock starts at [t0] and advances one millisecond per
    reading, and whose response keeps the status 200; used in examples. *)
Definition ticking (t0 : Z) : World :=
  {| w_clock := fun n => t0 + Z.of_nat n; w_reads := 0; w_log := [];
     w_statusCode := fun _ => 200; w_status_reads := 0 |}.

(* ===================================================================== *)
(** * Column declarations (the TypeORM decorators) *)
(* ===================================================================== *)

Module Orm.

Inductive ColumnType :=
| TInferred                       (* no [type] option given *)
| TDecimal
| TEnum (values : list string)
| TText
| TInt
| TJsonb
| TTimestamp.

(** The options object of [@Column({...})]. *)
Record ColumnOptions := {
  col_type : ColumnType;
  col_precision : option Z;
  col_scale : option Z;
  col_nullable : bool;
  col_unique : bool;
  col_default : option JValue;
}.

(** [@Column()] : every option at its default. *)
Definition no_options : ColumnOptions :=
  {| col_type := TInferred; col_precision := None; col_scale := None;
     col_nullable := false; col_unique := false; col_default := None |}.

Inductive Decorator :=
| PrimaryGeneratedColumn (strategy : string)
| Column (opts : ColumnOptions)
| CreateDateColumn
| UpdateDateColumn
| OneToMany (target inverse : string).

Record Property := { prop_name : string; prop_decorator : Decorator }.

Definition find_property (name : string) (ps : list Property) : option Property :=
  List.find (fun p => String.eqb (prop_name p) name) ps.

(** The options of the plain column called [name], if there is one. *)
Definition column_options (name : string) (ps : list Property) : option ColumnOptions :=
  match find_property name ps with
  | Some {| prop_decorator := Column o |} => Some o
  | _ => None
  end.

End Orm.

(* ===================================================================== *)
(** * The FeeTransaction entity *)
(* ===================================================================== *)

Inductive FeeStatus := PENDING | COLLECTED | FAILED | REFUNDED.

Inductive FeeTier := STANDARD | HIGH_VOLUME | VIP | PROMOTIONAL.

#[global] Instance FeeStatus_eq_dec : EqDecision FeeStatus.
Proof. solve_decision. Defined.

#[global] Instance FeeTier_eq_dec : EqDecision FeeTier.
Proof. solve_decision. Defined.

(** The string each enum member is declared with. *)
Definition FeeStatus_value (s : FeeStatus) : string :=
  match s with
  | PENDING => "PENDING"
  | COLLECTED => "COLLECTED"
  | FAILED => "FAILED"
  | REFUNDED => "REFUNDED"
  end.

Definition FeeTier_value (t : FeeTier) : string :=
  match t with
  | STANDARD => "STANDARD"
  | HIGH_VOLUME => "HIGH_VOLUME"
  | VIP => "VIP"
  | PROMOTIONAL => "PROMOTIONAL"
  end.

(** [Object.values(FeeStatus)] in declaration order. *)
Definition FeeStatus_values : list FeeStatus := [PENDING; COLLECTED; FAILED; REFUNDED].
Definition FeeTier_values : list FeeTier := [STANDARD; HIGH_VOLUME; VIP; PROMOTIONAL].

(** An instance of the class.  The properties of columns declared
    [nullable: true] are options: a row read back from storage may hold
    [null] there, whatever the property's static type says. *)
Record FeeTransaction := {
  id : string;
  userId : string;
  tradeAmount : string;
  feeAmount : string;
  feeRate : string;
  feeTier : FeeTier;
  status : FeeStatus;
  tradeId : option string;
  stellarTransactionHash : option string;
  assetCode : string;
  assetIssuer : string;
  platformWalletAddress : option string;
  failureReason : option string;
  retryCount : Z;
  metadata : option JObject;
  createdAt : Date;
  updatedAt : Date;
  collectedAt : option Date;
}.

(** [new FeeTransaction()]: the property initialisers, in declaration
    order; each [new Date()] reads the clock. *)
Definition new_FeeTransaction : M FeeTransaction :=
  created ← now;
  updated ← now;
  collected ← now;
  mret {| id := "";
         userId := "";
         tradeAmount := "0";
         feeAmount := "0";
         feeRate := "0";
         feeTier := STANDARD;
         status := PENDING;
         tradeId := Some "";
         stellarTransactionHash := Some "";
         assetCode := "";
         assetIssuer := "";
         platformWalletAddress := Some "";
         failureReason := Some "";
         retryCount := 0;
         metadata := Some [];
         createdAt := created;
         updatedAt := updated;
         collectedAt := Some collected |}.

(** The record that [new FeeTransaction()] builds in world [w]. *)
Definition fresh (w : World) : FeeTransaction := (new_FeeTransaction w).1.

Import Orm.

(** The decorators of the class, property by property. *)
Definition FeeTransaction_properties : list Property :=
  [ {| prop_name := "id"; prop_decorator := PrimaryGeneratedColumn "uuid" |};
    {| prop_name := "userId"; prop_decorator := Column no_options |};
    {| prop_name := "tradeAmount";
       prop_decorator := Column
         {| col_type := TDecimal; col_precision := Some 20; col_scale := Some 7;
            col_nullable := false; col_unique := false; col_default := None |} |};
    {| prop_name := "feeAmount";
       prop_decorator := Column
         {| col_type := TDecimal; col_precision := Some 20; col_scale := Some 7;
            col_nullable := false; col_unique := false; col_default := None |} |};
    {| prop_name := "feeRate";
       prop_decorator := Column
         {| col_type := TDecimal; col_precision := Some 5; col_scale := Some 4;
            col_nullable := false; col_unique := false; col_default := None |} |};
    {| prop_name := "feeTier";
       prop_decorator := Column
         {| col_type := TEnum (map FeeTier_value FeeTier_values);
            col_precision := None; col_scale := None;
            col_nullable := false; col_unique := false;
            col_default := Some (JStr (FeeTier_value STANDARD)) |} |};
    {| prop_name := "status";
       prop_decorator := Column
         {| col_type := TEnum (map FeeStatus_value FeeStatus_values);
            col_precision := None; col_scale := None;
            col_nullable := false; col_unique := false;
            col_default := Some (JStr (FeeStatus_value PENDING)) |} |};
    {| prop_name := "tradeId";
       prop_decorator := Column
         {| col_type := TInferred; col_precision := None; col_scale := None;
            col_nullable := true; col_unique := false; col_default := None |} |};
    {| prop_name := "stellarTransactionHash";
       prop_decorator := Column
         {| col_type := TInferred; col_precision := None; col_scale := None;
            col_nullable := true; col_unique := false; col_default := None |} |};
    {| prop_name := "assetCode"; prop_decorator := Column no_options |};
    {| prop_name := "assetIssuer"; prop_decorator := Column no_options |};
    {| prop_name := "platformWalletAddress";
       prop_decorator := Column
         {| col_type := TInferred; col_precision := None; col_scale := None;
            col_nullable := true; col_unique := false; col_default := None |} |};
    {| prop_name := "failureReason";
       prop_decorator := Column
         {| col_type := TText; col_precision := None; col_scale := None;
            col_nullable := true; col_unique := false; col_default := None |} |};
    {| prop_name := "retryCount";
       prop_decorator := Column
         {| col_type := TInt; col_precision := None; col_scale := None;
            col_nullable := false; col_unique := false;
            col_default := Some (JNum 0) |} |};
    {| prop_name := "metadata";
       prop_decorator := Column
         {| col_type := TJsonb; col_precision := None; col_scale := None;
            col_nullable := true; col_unique := false; col_default := None |} |};
    {| prop_name := "createdAt"; prop_decorator := CreateDateColumn |};
    {| prop_name := "updatedAt"; prop_decorator := UpdateDateColumn |};
    {| prop_name := "collectedAt";
       prop_decorator := Column
         {| col_type := TTimestamp; col_precision := None; col_scale := None;
            col_nullable := true; col_unique := false; col_default := None |} |} ].

(** A nullable property is set when it holds a value rather than [null]:
    that is what its column, declared [nullable: true], tells apart. *)
Definition date_is_set (d : option Date) : bool :=
  match d with Some _ => true | None => false end.


(* ===================================================================== *)
(** * Decimal columns *)
(* ===================================================================== *)

(** The amounts are kept as decimal strings and stored in [decimal]
    columns.  A decimal literal denotes [unscaled / 10^scale]. *)
Module Decimal.

Record t := { unscaled : Z; scale : nat }.

Definition digit_of (c : ascii) : option Z :=
  let n := Z.of_nat (nat_of_ascii c) in
  if (48 <=? n) && (n <=? 57) then Some (n - 48) else None.

(** Digits with at most one decimal point; [frac] counts the digits read
    after the point, [seen] records that a digit was read at all. *)
Fixpoint parse_digits (s : string) (acc : Z) (frac : option nat) (seen : bool)
  : option t :=
  match s with
  | EmptyString =>
      if seen then Some {| unscaled := acc; scale := default 0%nat frac |} else None
  | String c rest =>
      if Ascii.eqb c "."%char then
        match frac with
        | None => parse_digits rest acc (Some 0%nat) seen
        | Some _ => None
        end
      else
        match digit_of c with
        | Some d => parse_digits rest (10 * acc + d) (S <$> frac) true
        | None => None
        end
  end.

(** [-]digits[.digits] *)
Definition parse (s : string) : option t :=
  match s with
  | String c rest =>
      if Ascii.eqb c "-"%char then
        match parse_digits rest 0 None false with
        | Some d => Some {| unscaled := - unscaled d; scale := scale d |}
        | None => None
        end
      else parse_digits s 0 None false
  | EmptyString => None
  end.

(** The count of [10^-s] units of [d], when [d] has no more than [s]
    fractional digits. *)
Definition units (s : nat) (d : t) : option Z :=
  if (scale d <=? s)%nat then Some (unscaled d * 10 ^ Z.of_nat (s - scale d)) else None.

(** [d] is exactly representable in a [decimal(p, s)] column: at most [s]
    fractional digits and at most [p] digits in all. *)
Definition fits (p s : nat) (d : t) : bool :=
  match units s d with
  | Some n => Z.abs n <? 10 ^ Z.of_nat p
  | None => false
  end.

(** The same test against a column's declared options. *)
Definition fits_column (o : Orm.ColumnOptions) (d : t) : bool :=
  match Orm.col_type o, Orm.col_precision o, Orm.col_scale o with
  | Orm.TDecimal, Some p, Some s => fits (Z.to_nat p) (Z.to_nat s) d
  | _, _, _ => false
  end.

End Decimal.

(* ===================================================================== *)
(** * The User entity *)
(* ===================================================================== *)

(** The decorators of the class.  The class gives no property an
    initialiser, so [new User()] assigns nothing. *)
Definition User_properties : list Property :=
  [ {| prop_name := "id"; prop_decorator := PrimaryGeneratedColumn "uuid" |};
    {| prop_name := "username";
       prop_decorator := Column
         {| col_type := TInferred; col_precision := None; col_scale := None;
            col_nullable := false; col_unique := true; col_default := None |} |};
    {| prop_name := "wallet_address";
       prop_decorator := Column
         {| col_type := TInferred; col_precision := None; col_scale := None;
            col_nullable := false; col_unique := true; col_default := None |} |};
    {| prop_name := "bio";
       prop_decorator := Column
         {| col_type := TInferred; col_precision := None; col_scale := None;
            col_nullable := true; col_unique := false; col_default := None |} |};
    {| prop_name := "reputation_score";
       prop_decorator := Column
         {| col_type := TInferred; col_precision := None; col_scale := None;
            col_nullable := false; col_unique := false;
            col_default := Some (JNum 0) |} |};
    {| prop_name := "signals"; prop_decorator := OneToMany "Signal" "provider" |};
    {| prop_name := "created_at"; prop_decorator := CreateDateColumn |};
    {| prop_name := "updated_at"; prop_decorator := UpdateDateColumn |} ].

(* ===================================================================== *)
(** * What the column options mean in storage *)
(* ===================================================================== *)

(** The table a list of column declarations describes, with the
    constraints the options stand for: [nullable: false] refuses [null],
    [default] fills a property left [undefined], [unique: true] refuses a
    value that a stored row already has in that column. *)
Module Storage.

(** A stored cell. *)
Inductive Cell := CNull | CBool (b : bool) | CNum (n : Z) | CStr (s : string).

#[global] Instance Cell_eq_dec : EqDecision Cell.
Proof. solve_decision. Defined.

(** An entity instance handed to [save]: its assigned scalar properties
    (a property that is absent is [undefined]). *)
Abbreviation Entity := (gmap string Cell).
Abbreviation Row := (gmap string Cell).

Inductive StorageError :=
| NotNullViolation (column : string)
| UniqueViolation (column : string).

Definition cell_of_default (v : JValue) : Cell :=
  match v with
  | JBool b => CBool b
  | JNum n => CNum n
  | JStr s => CStr s
  | _ => CNull
  end.

(** The cell an INSERT writes for one column. *)
Definition column_value (name : string) (o : ColumnOptions) (e : Entity)
  : StorageError + Cell :=
  match e !! name with
  | Some CNull => if col_nullable o then inr CNull else inl (NotNullViolation name)
  | Some v => inr v
  | None =>
      match col_default o with
      | Some d => inr (cell_of_default d)
      | None => if col_nullable o then inr CNull else inl (NotNullViolation name)
      end
  end.

(** Some stored row already holds [v] in column [name]. *)
Definition taken (name : string) (v : Cell) (table : list Row) : bool :=
  existsb (fun r => bool_decide (r !! name = Some v)) table.

(** The cells of the row, column by column, the NOT NULL constraints
    checked on the way; generated columns and relations hold no constraint
    of interest and are left out. *)
Fixpoint row_cells (ps : list Property) (e : Entity) : StorageError + Row :=
  match ps with
  | [] => inr ∅
  | p :: rest =>
      match prop_decorator p with
      | Column o =>
          match column_value (prop_name p) o e with
          | inl err => inl err
          | inr v =>
              match row_cells rest e with
              | inl err => inl err
              | inr row => inr (<[prop_name p := v]> row)
              end
          end
      | _ => row_cells rest e
      end
  end.

(** The first unique column in which a stored row already holds the
    value of [row]; NULL conflicts with nothing. *)
Fixpoint unique_conflict (ps : list Property) (table : list Row) (row : Row)
  : option StorageError :=
  match ps with
  | [] => None
  | p :: rest =>
      match prop_decorator p, row !! prop_name p with
      | Column o, Some v =>
          if col_unique o && bool_decide (v ≠ CNull) && taken (prop_name p) v table
          then Some (UniqueViolation (prop_name p))
          else unique_conflict rest table row
      | _, _ => unique_conflict rest table row
      end
  end.

(** The row written for an entity: every NOT NULL constraint is checked
    before any unique index is consulted. *)
Definition build_row (ps : list Property) (table : list Row) (e : Entity)
  : StorageError + Row :=
  match row_cells ps e with
  | inl err => inl err
  | inr row =>
      match unique_conflict ps table row with
      | Some err => inl err
      | None => inr row
      end
  end.

(** The INSERT that [repository.save(entity)] issues for a new entity, one
    that is not stored yet (a stored entity carries its generated id, and
    saving it again is an UPDATE, which is not modelled). *)
Definition insert (ps : list Property) (table : list Row) (e : Entity)
  : StorageError + list Row :=
  match build_row ps table e with
  | inl err => inl err
  | inr row => inr (table ++ [row])%list
  end.

(** The tables that a sequence of saves can build from the empty one. *)
Inductive reachable (ps : list Property) : list Row -> Prop :=
| reach_empty : reachable ps []
| reach_insert table e table' :
    reachable ps table -> insert ps table e = inr table' -> reachable ps table'.

(** Column [c] of [table] holds a value in every row and no value twice. *)
Definition unique_in (c : string) (table : list Row) : Prop :=
  (forall i r, table !! i = Some r -> exists v, r !! c = Some v /\ v <> CNull)
  /\ (forall i j ri rj, table !! i = Some ri -> table !! j = Some rj ->
        ri !! c = rj !! c -> i = j).

End Storage.

(** Two users for the examples: [alice], saved without a reputation
    score, and [mallory], who asks for alice's username. *)
Definition alice : gmap string Storage.Cell :=
  {[ "username" := Storage.CStr "alice";
     "wallet_address" := Storage.CStr "GALICE" ]}.

Definition mallory : gmap string Storage.Cell :=
  {[ "username" := Storage.CStr "alice";
     "wallet_address" := Storage.CStr "GMALLORY" ]}.

(* ===================================================================== *)
(** * HTTP request and response *)
(* ===================================================================== *)

(** The fields of Express's [Request] that the sources read. *)
Record Request := { method : string; url : string }.

(** Express's [Response]: its status code and the body sent with
    [json(...)], if one was sent. *)
Record Response := { statusCode : Z; sent : option JObject }.

(** [response.status(code)] *)
Definition set_status_code (code : Z) (r : Response) : Response :=
  {| statusCode := code; sent := sent r |}.

(** [response.json(body)] *)
Definition send_json (body : JObject) (r : Response) : Response :=
  {| statusCode := statusCode r; sent := Some body |}.

(** [host.switchToHttp()] / [context.switchToHttp()] *)
Record HttpContext := { getRequest : Request; getResponse : Response }.

(* ===================================================================== *)
(** * GlobalExceptionFilter *)
(* ===================================================================== *)

Module GlobalExceptionFilter.

(** [HttpStatus.INTERNAL_SERVER_ERROR] *)
Definition INTERNAL_SERVER_ERROR : Z := 500.

(** What [catch] can be handed: it is declared [unknown]. *)
Abbreviation HttpException := Nest.HttpException.
Abbreviation getStatus := Nest.getStatus.
Abbreviation getResponseBody := Nest.getResponseBody.
Abbreviation http_message := Nest.http_message.
Abbreviation Thrown := Nest.Thrown.
Abbreviation ThrownHttp := Nest.ThrownHttp.
Abbreviation ThrownError := Nest.ThrownError.
Abbreviation ThrownOther := Nest.ThrownOther.

Definition logger_context : string := "GlobalExceptionFilter".

Section Catch.
(** [Date.prototype.toISOString] and [process.env.NODE_ENV]. *)
Variable toISOString : Date -> string.
Variable NODE_ENV : option string.

(** The three locals [status], [message], [details] after the
    [if / else if] on the exception. *)
Definition classify (exception : Thrown) : Z * JValue * JValue :=
  match exception with
  | ThrownHttp e =>
      match getResponseBody e with
      | inr exceptionResponse =>
          (getStatus e,
           js_or (get_prop "message" exceptionResponse) (JStr (http_message e)),
           JObj exceptionResponse)
      | inl exceptionResponse =>
          (getStatus e, JStr exceptionResponse, JObj [])
      end
  | ThrownError name message stack =>
      (INTERNAL_SERVER_ERROR, JStr message,
       JObj [("name", JStr name); ("stack", stack)])
  | ThrownOther _ =>
      (INTERNAL_SERVER_ERROR, JStr "Internal server error", JObj [])
  end.

(** [...(process.env.NODE_ENV === "development" && { details })] *)
Definition details_spread (details : JValue) : JObject :=
  if bool_decide (NODE_ENV = Some "development") then [("details", details)] else [].

Definition catch (exception : Thrown) (host : HttpContext) : M Response :=
  let response := getResponse host in
  let request := getRequest host in
  let '(status, message, details) := classify exception in
  _ ← log_with LError logger_context
        ("[" +:+ method request +:+ "] " +:+ url request) [exception];
  timestamp ← now;
  mret (send_json
          ([("statusCode", JNum status);
            ("message", message);
            ("timestamp", JStr (toISOString timestamp));
            ("path", JStr (url request))] ++ details_spread details)
          (set_status_code status response)).

End Catch.

End GlobalExceptionFilter.

(* ===================================================================== *)
(** * LoggingInterceptor *)
(* ===================================================================== *)

Module LoggingInterceptor.

(** What an observable delivers to its subscriber. *)
Inductive Notification (A : Type) :=
| Next (value : A)
| Error (err : JValue)
| Complete.
Arguments Next {A} value.
Arguments Error {A} err.
Arguments Complete {A}.

(** An observable is the sequence of notifications it delivers. *)
Definition Observable (A : Type) := list (Notification A).

(** The values an observable emits, in order. *)
Definition emitted {A} (o : Observable A) : list A :=
  omap (fun n => match n with Next v => Some v | _ => None end) o.

(** [source.pipe(tap(next))]: [next] runs on every emitted value, then
    the notification goes on to the subscriber. *)
Fixpoint tap {A} (next : A -> M unit) (source : Observable A) : M (Observable A) :=
  match source with
  | [] => mret []
  | n :: rest =>
      _ ← match n with Next v => next v | _ => mret tt end;
      rest' ← tap next rest;
      mret (n :: rest')
  end.

(** [CallHandler]: [handle()] gives the route handler's observable. *)
Record CallHandler (A : Type) := { handle : Observable A }.
Arguments handle {A} _.

Definition logger_context : string := "LoggingInterceptor".

(** [intercept(context, next)], run together with the subscription to
    the observable it returns.  [response] is a reference to the mutable
    response, so the callback reads its status code when a value arrives,
    not when [intercept] is called. *)
Definition intercept {A} (context : HttpContext) (next : CallHandler A)
  : M (Observable A) :=
  let request := getRequest context in
  startTime ← now;
  tap (fun _ =>
         t ← now;
         let duration := t - startTime in
         statusCode ← read_statusCode;
         log LDebug logger_context
           ("[" +:+ method request +:+ "] " +:+ url request +:+ " - "
              +:+ pretty statusCode +:+ " - " +:+ pretty duration +:+ "ms"))
      (handle next).

End LoggingInterceptor.

(* ===================================================================== *)
(** * The fee-settlement core *)
(* ===================================================================== *)

(** Assignments to the properties of a [FeeTransaction] that the
    settlement core writes. *)
Definition set_status (s : FeeStatus) (tx : FeeTransaction) : FeeTransaction :=
  {| id := id tx; userId := userId tx; tradeAmount := tradeAmount tx;
     feeAmount := feeAmount tx; feeRate := feeRate tx; feeTier := feeTier tx;
     status := s;
     tradeId := tradeId tx; stellarTransactionHash := stellarTransactionHash tx;
     assetCode := assetCode tx; assetIssuer := assetIssuer tx;
     platformWalletAddress := platformWalletAddress tx;
     failureReason := failureReason tx; retryCount := retryCount tx;
     metadata := metadata tx; createdAt := createdAt tx; updatedAt := updatedAt tx;
     collectedAt := collectedAt tx |}.

Definition set_failureReason (r : option string) (tx : FeeTransaction) : FeeTransaction :=
  {| id := id tx; userId := userId tx; tradeAmount := tradeAmount tx;
     feeAmount := feeAmount tx; feeRate := feeRate tx; feeTier := feeTier tx;
     status := status tx;
     tradeId := tradeId tx; stellarTransactionHash := stellarTransactionHash tx;
     assetCode := assetCode tx; assetIssuer := assetIssuer tx;
     platformWalletAddress := platformWalletAddress tx;
     failureReason := r; retryCount := retryCount tx;
     metadata := metadata tx; createdAt := createdAt tx; updatedAt := updatedAt tx;
     collectedAt := collectedAt tx |}.

Definition set_retryCount (n : Z) (tx : FeeTransaction) : FeeTransaction :=
  {| id := id tx; userId := userId tx; tradeAmount := tradeAmount tx;
     feeAmount := feeAmount tx; feeRate := feeRate tx; feeTier := feeTier tx;
     status := status tx;
     tradeId := tradeId tx; stellarTransactionHash := stellarTransactionHash tx;
     assetCode := assetCode tx; assetIssuer := assetIssuer tx;
     platformWalletAddress := platformWalletAddress tx;
     failureReason := failureReason tx; retryCount := n;
     metadata := metadata tx; createdAt := createdAt tx; updatedAt := updatedAt tx;
     collectedAt := collectedAt tx |}.

Definition set_collectedAt (d : option Date) (tx : FeeTransaction) : FeeTransaction :=
  {| id := id tx; userId := userId tx; tradeAmount := tradeAmount tx;
     feeAmount := feeAmount tx; feeRate := feeRate tx; feeTier := feeTier tx;
     status := status tx;
     tradeId := tradeId tx; stellarTransactionHash := stellarTransactionHash tx;
     assetCode := assetCode tx; assetIssuer := assetIssuer tx;
     platformWalletAddress := platformWalletAddress tx;
     failureReason := failureReason tx; retryCount := retryCount tx;
     metadata := metadata tx; createdAt := createdAt tx; updatedAt := updatedAt tx;
     collectedAt := d |}.

(** [tx.feeRate = rate] and [tx.tradeAmount = amount]: the properties are
    public strings, open to any assignment. *)
Definition set_feeRate (rate : string) (tx : FeeTransaction) : FeeTransaction :=
  {| id := id tx; userId := userId tx; tradeAmount := tradeAmount tx;
     feeAmount := feeAmount tx; feeRate := rate; feeTier := feeTier tx;
     status := status tx;
     tradeId := tradeId tx; stellarTransactionHash := stellarTransactionHash tx;
     assetCode := assetCode tx; assetIssuer := assetIssuer tx;
     platformWalletAddress := platformWalletAddress tx;
     failureReason := failureReason tx; retryCount := retryCount tx;
     metadata := metadata tx; createdAt := createdAt tx; updatedAt := updatedAt tx;
     collectedAt := collectedAt tx |}.

Definition set_tradeAmount (amount : string) (tx : FeeTransaction) : FeeTransaction :=
  {| id := id tx; userId := userId tx; tradeAmount := amount;
     feeAmount := feeAmount tx; feeRate := feeRate tx; feeTier := feeTier tx;
     status := status tx;
     tradeId := tradeId tx; stellarTransactionHash := stellarTransactionHash tx;
     assetCode := assetCode tx; assetIssuer := assetIssuer tx;
     platformWalletAddress := platformWalletAddress tx;
     failureReason := failureReason tx; retryCount := retryCount tx;
     metadata := metadata tx; createdAt := createdAt tx; updatedAt := updatedAt tx;
     collectedAt := collectedAt tx |}.

Module FeeCore.

(** ** Money *)

(** Modelled from the spec: the Money type and its [multiplyByRate]
    have no source file.  A Money value is its count of [10^-7] units
    (scale 7); a Ratio is its count of [10^-4] units (the scale of the
    [feeRate] column). *)
Abbreviation Money := Z.
Abbreviation Ratio := Z.

Definition MONEY_SCALE : nat := 7.
Definition MONEY_PRECISION : nat := 20.
Definition RATIO_SCALE : nat := 4.
Definition RATIO_PRECISION : nat := 5.

(** A trade or fee amount: non-negative and within 20 digits. *)
Definition valid_money (m : Money) : Prop := 0 <= m < 10 ^ Z.of_nat MONEY_PRECISION.

(** A rate that the [feeRate] column can hold. *)
Definition valid_ratio (r : Ratio) : Prop := Z.abs r < 10 ^ Z.of_nat RATIO_PRECISION.

(** The rate 1 (100%). *)
Definition RATIO_ONE : Ratio := 10 ^ Z.of_nat RATIO_SCALE.

(** Modelled from the spec: banker's rounding of [x / d] to an integer,
    by floor division and a look at the remainder. *)
Definition round_half_even (x d : Z) : Z :=
  let q := x / d in
  let r := x mod d in
  if 2 * r <? d then q
  else if d <? 2 * r then q + 1
  else if Z.even q then q else q + 1.

(** [q] is [x / d] rounded half-to-even: a nearest integer, the even
    one on a tie. *)
Definition is_half_even_rounding (x d q : Z) : Prop :=
  2 * Z.abs (x - q * d) <= d /\ (2 * Z.abs (x - q * d) = d -> Z.even q = true).

(** Modelled from the spec: [multiplyByRate(rate)], the product brought
    back from scale 7 + 4 to scale 7 with banker's rounding. *)
Definition multiplyByRate (amount : Money) (rate : Ratio) : Money :=
  round_half_even (amount * rate) (10 ^ Z.of_nat RATIO_SCALE).

(** Modelled from the spec: the fee amount of a quote,
    [feeAmount = tradeAmount * feeRate]. *)
Definition feeAmountOf (tradeAmount : Money) (feeRate : Ratio) : Money :=
  multiplyByRate tradeAmount feeRate.

(** ** The status state machine *)

Inductive CoreError :=
| InvalidAmount
| Overflow
| UnknownPromotionCode
| InvalidStateTransition
| ConcurrentModification
| LedgerSubmissionFailed (retryable : bool)
| RetryExhausted
| NotFound.

(** What can ask for a transition. *)
Inductive Event :=
| SettlementConfirmed (at_time : Date)
| SettlementFailed (reason : string)
| RetryAttempt
| RefundRequested.

(** Modelled from the spec: the transitions of the Fee Transaction
    State Machine, which has no source file.

    - PENDING -> COLLECTED on confirmation; sets [collectedAt].
    - PENDING -> FAILED on rejection or timeout; sets [failureReason],
      increments [retryCount].
    - FAILED -> PENDING on a retry attempt while [retryCount] is below
      the configured maximum; clears [failureReason]; at the maximum the
      attempt yields [RetryExhausted].
    - COLLECTED -> REFUNDED on an explicit request; asking again on a
      REFUNDED transaction is a no-op.
    - any other request fails with [InvalidStateTransition]. *)
Definition transition (maxRetries : Z) (tx : FeeTransaction) (ev : Event)
  : CoreError + FeeTransaction :=
  match status tx, ev with
  | PENDING, SettlementConfirmed t =>
      inr (set_collectedAt (Some t) (set_status COLLECTED tx))
  | PENDING, SettlementFailed reason =>
      inr (set_retryCount (retryCount tx + 1)
             (set_failureReason (Some reason) (set_status FAILED tx)))
  | FAILED, RetryAttempt =>
      if retryCount tx <? maxRetries
      then inr (set_failureReason None (set_status PENDING tx))
      else inl RetryExhausted
  | COLLECTED, RefundRequested => inr (set_status REFUNDED tx)
  | REFUNDED, RefundRequested => inr tx
  | _, _ => inl InvalidStateTransition
  end.

(** A refused request leaves the record as it was. *)
Definition apply_event (maxRetries : Z) (tx : FeeTransaction) (ev : Event)
  : FeeTransaction :=
  match transition maxRetries tx ev with
  | inr tx' => tx'
  | inl _ => tx
  end.

(** The record after a sequence of requests. *)
Definition run (maxRetries : Z) (evs : list Event) (tx : FeeTransaction)
  : FeeTransaction :=
  fold_left (apply_event maxRetries) evs tx.

(** ** requestRefund over the persistence collaborator *)

(** Modelled from the spec: the persistence collaborator, as the rows it
    holds by id and the journal of the status changes written to it. *)
Record Persistence := {
  rows : gmap string FeeTransaction;
  journal : list (string * FeeStatus * FeeStatus);
}.

(** Modelled from the spec: [requestRefund(id)].  A COLLECTED
    transaction is moved to REFUNDED and written back; a REFUNDED one is
    returned as it is, with nothing written. *)
Definition requestRefund (txId : string) (db : Persistence)
  : Persistence * (CoreError + FeeTransaction) :=
  match rows db !! txId with
  | None => (db, inl NotFound)
  | Some tx =>
      match transition 0 tx RefundRequested with
      | inl err => (db, inl err)
      | inr tx' =>
          if decide (status tx' = status tx) then (db, inr tx')
          else ({| rows := <[txId := tx']> (rows db);
                   journal := (journal db ++ [(txId, status tx, status tx')])%list |},
                inr tx')
      end
  end.

End FeeCore.

(** An example store: one transaction, collected half a second after it
    was created. *)
Definition collected_tx : FeeTransaction :=
  set_collectedAt (Some 1700000000500) (set_status COLLECTED (fresh (ticking 1700000000000))).

Definition one_collected : FeeCore.Persistence :=
  {| FeeCore.rows := {[ "tx-1" := collected_tx ]}; FeeCore.journal := [] |}.

(* ===================================================================== *)
(** * The application configuration *)
(* ===================================================================== *)

(** [appConfig], the factory registered under the name "app".  It reads
    [process.env], a map from variable names to strings. *)
Module AppConfig.

(** The result of [parseInt]: [NaN] or an integer (exact here; JavaScript
    keeps the nearest double, the same number up to 2^53). *)
Inductive JsNumber := NaN | Num (n : Z).

(** White space that [parseInt] skips, among the ASCII characters: tab,
    line feed, vertical tab, form feed, carriage return, space. *)
Definition is_space (c : ascii) : bool :=
  let n := nat_of_ascii c in
  ((9 <=? n) && (n <=? 13))%nat || (n =? 32)%nat.

Definition digit_value (c : ascii) : option Z :=
  let n := Z.of_nat (nat_of_ascii c) in
  if (48 <=? n) && (n <=? 57) then Some (n - 48) else None.

Fixpoint skip_space (s : string) : string :=
  match s with
  | String c rest => if is_space c then skip_space rest else s
  | EmptyString => s
  end.

(** The value of the longest prefix of decimal digits, [None] when the
    string starts with no digit; [acc] is the value read so far. *)
Fixpoint digits_prefix (s : string) (acc : option Z) : option Z :=
  match s with
  | String c rest =>
      match digit_value c with
      | Some d => digits_prefix rest (Some (10 * default 0 acc + d))
      | None => acc
      end
  | EmptyString => acc
  end.

(** [parseInt(s, 10)]: leading white space, an optional sign, then the
    longest run of decimal digits; what follows is ignored. *)
Definition parseInt (s : string) : JsNumber :=
  let s1 := skip_space s in
  let '(sign, s2) :=
    match s1 with
    | String c rest =>
        if Ascii.eqb c "-"%char then (-1, rest)
        else if Ascii.eqb c "+"%char then (1, rest)
        else (1, s1)
    | EmptyString => (1, s1)
    end in
  match digits_prefix s2 None with
  | Some n => Num (sign * n)
  | None => NaN
  end.

(** [s.split(sep)] for a one-character separator. *)
Fixpoint split (sep : ascii) (s : string) : list string :=
  match s with
  | EmptyString => [""]
  | String c rest =>
      if Ascii.eqb c sep then "" :: split sep rest
      else
        match split sep rest with
        | piece :: more => String c piece :: more
        | [] => [String c ""]
        end
  end.

(** [value || fallback] for an environment variable: [undefined] and the
    empty string are the falsy cases. *)
Definition env_or (value : option string) (fallback : string) : string :=
  match value with
  | Some s => if String.eqb s "" then fallback else s
  | None => fallback
  end.

Record PrettyOptions := {
  colorize : bool;
  singleLine : bool;
  translateTime : string;
  ignore : string;
}.

Record Transport := { target : string; options : PrettyOptions }.

Record Cors := { origin : list string; credentials : bool }.

Record LoggerOptions := { level : string; transport : option Transport }.

Record Config := {
  nodeEnv : string;
  port : JsNumber;
  host : string;
  apiPrefix : string;
  apiVersion : string;
  cors : Cors;
  logger : LoggerOptions;
}.

Definition pino_pretty : Transport :=
  {| target := "pino-pretty";
     options := {| colorize := true; singleLine := false;
                   translateTime := "SYS:standard"; ignore := "pid,hostname" |} |}.

(** The factory.  [transport: undefined] is [None]. *)
Definition appConfig (env : gmap string string) : Config :=
  {| nodeEnv := env_or (env !! "NODE_ENV") "development";
     port := parseInt (env_or (env !! "PORT") "3000");
     host := env_or (env !! "HOST") "0.0.0.0";
     apiPrefix := env_or (env !! "API_PREFIX") "/api";
     apiVersion := env_or (env !! "API_VERSION") "v1";
     cors :=
       {| origin :=
            match env !! "CORS_ORIGIN" with
            | Some s => split ","%char s
            | None => ["http://localhost:3000"]
            end;
          credentials := negb (bool_decide (env !! "CORS_CREDENTIALS" = Some "false")) |};
     logger :=
       {| level := env_or (env !! "LOG_LEVEL") "debug";
          transport :=
            if bool_decide (env !! "NODE_ENV" = Some "production") then None
            else Some pino_pretty |} |}.

(** The environment variables that the factory reads. *)
Definition variables_read : list string :=
  ["NODE_ENV"; "PORT"; "HOST"; "API_PREFIX"; "API_VERSION"; "CORS_ORIGIN";
   "CORS_CREDENTIALS"; "LOG_LEVEL"].

(** A character that can start neither white space, a sign nor a digit
    for [parseInt]: an ASCII character outside those three classes. *)
Definition starts_no_number (c : ascii) : bool :=
  (nat_of_ascii c <? 128)%nat && negb (is_space c)
  && negb (Ascii.eqb c "-"%char) && negb (Ascii.eqb c "+"%char)
  && match digit_value c with Some _ => false | None => true end.

(** The string does not go on with a digit. *)
Definition no_digit_ahead (s : string) : bool :=
  match s with
  | String c _ => match digit_value c with Some _ => false | None => true end
  | EmptyString => true
  end.

End AppConfig.

(* ===================================================================== *)
(** * Views used to state properties *)
(* ===================================================================== *)

(** A FeeTransaction instance as the JavaScript object it is, for the
    properties whose columns declare a default. *)
Definition defaulted_properties (tx : FeeTransaction) : JObject :=
  [("feeTier", JStr (FeeTier_value (feeTier tx)));
   ("status", JStr (FeeStatus_value (status tx)));
   ("retryCount", JNum (retryCount tx))].

(** The line the logging interceptor writes for a value that arrived
    [duration] milliseconds after the start, the response having the
    status [status] at that moment. *)
Definition debug_line (context : HttpContext) (status duration : Z) : LogEntry :=
  {| log_level := LDebug;
     log_context := LoggingInterceptor.logger_context;
     log_message :=
       "[" +:+ method (getRequest context) +:+ "] " +:+ url (getRequest context)
         +:+ " - " +:+ pretty status +:+ " - " +:+ pretty duration +:+ "ms";
     log_params := [] |}.

(** The callback that [intercept] hands to [tap], for a request that
    started at [startTime]. *)
Definition tap_callback {A : Type} (context : HttpContext) (startTime : Z)
  : A -> M unit :=
  fun _ =>
    t ← now;
    statusCode ← read_statusCode;
    log LDebug LoggingInterceptor.logger_context
      ("[" +:+ method (getRequest context) +:+ "] " +:+ url (getRequest context)
         +:+ " - " +:+ pretty statusCode
         +:+ " - " +:+ pretty (t - startTime) +:+ "ms").

(** The line for the [i]-th readings of the status and of the clock
    after those already taken. *)
Definition line_at (context : HttpContext) (startTime : Z) (w : World) (i : nat)
  : LogEntry :=
  debug_line context (w_statusCode w (w_status_reads w + i))
    (w_clock w (w_reads w + i) - startTime).


(** The keys of an object, in order. *)
Definition keys (o : JObject) : list string := map fst o.

(** The JSON body sent with the response carries [key]. *)
Definition response_has (key : string) (r : Response) : bool :=
  match sent r with
  | Some body => json_has key body
  | None => false
  end.

(** The string holds the character [c]. *)
Definition contains_char (c : ascii) (s : string) : Prop :=
  In c (String.list_ascii_of_string s).

(* ===================================================================== *)
(** * Properties of the FeeTransaction entity *)
(* ===================================================================== *)

Section FreshRecord.
Variable w : World.

Lemma fresh_status : status (fresh w) = PENDING.
Proof. reflexivity. Qed.

Lemma fresh_collectedAt : collectedAt (fresh w) = Some (w_clock w (S (S (w_reads w)))).
Proof. reflexivity. Qed.

Lemma fresh_failureReason : failureReason (fresh w) = Some "".
Proof. reflexivity. Qed.

Lemma fresh_amounts :
  tradeAmount (fresh w) = "0" /\ feeAmount (fresh w) = "0" /\ feeRate (fresh w) = "0".
Proof. repeat split. Qed.
End FreshRecord.

(** C7. FeeStatus has exactly the four members PENDING, COLLECTED, FAILED
    and REFUNDED (four distinct members, with four distinct string values,
    and every status is one of them); PENDING is the status of every newly
    constructed FeeTransaction and the declared default of the [status]
    column. *)
Theorem FeeStatus_four_values_PENDING_initial :
  FeeStatus_values = [PENDING; COLLECTED; FAILED; REFUNDED]
  /\ (forall s : FeeStatus, s ∈ FeeStatus_values)
  /\ NoDup FeeStatus_values
  /\ NoDup (map FeeStatus_value FeeStatus_values)
  /\ (forall w : World, status (fresh w) = PENDING)
  /\ exists o, column_options "status" FeeTransaction_properties = Some o
       /\ col_type o = TEnum ["PENDING"; "COLLECTED"; "FAILED"; "REFUNDED"]
       /\ col_default o = Some (JStr (FeeStatus_value PENDING)).
Proof.
  split; [reflexivity|].
  split; [intros []; unfold FeeStatus_values; set_solver|].
  split; [apply (bool_decide_unpack _); vm_compute; exact I|].
  split; [apply (bool_decide_unpack _); vm_compute; exact I|].
  split; [intros w; apply fresh_status|].
  eexists; split; [reflexivity|]. split; reflexivity.
Qed.

(** ** Decimal columns *)

Lemma pow10_pos (n : nat) : 0 < 10 ^ Z.of_nat n.
Proof. apply Z.pow_pos_nonneg; lia. Qed.

(** C5, as the code has it.  The [feeRate] column is declared [decimal]
    with scale 4 and precision 5, four fractional digits and five digits in
    all, so that it holds 9.9999 but neither 10 nor 0.12345; the rate of a
    newly constructed FeeTransaction, "0", fits it. *)
Theorem feeRate_column_scale_4_precision_5 :
  exists o, column_options "feeRate" FeeTransaction_properties = Some o
    /\ col_type o = TDecimal /\ col_scale o = Some 4 /\ col_precision o = Some 5
    /\ Decimal.fits_column o {| Decimal.unscaled := 99999; Decimal.scale := 4 |} = true
    /\ Decimal.fits_column o {| Decimal.unscaled := 10; Decimal.scale := 0 |} = false
    /\ Decimal.fits_column o {| Decimal.unscaled := 12345; Decimal.scale := 5 |} = false
    /\ (forall w, exists d, Decimal.parse (feeRate (fresh w)) = Some d
          /\ Decimal.fits_column o d = true).
Proof.
  eexists; split; [reflexivity|]. repeat split.
  intros w. eexists; split; reflexivity.
Qed.

(** C5 as stated fails twice.  The column's precision is 5, not 4: it
    holds the rate 1.2345, which has five digits.  And the class does not
    keep the rate of every record within the column: [feeRate] is a string
    that any assignment can set, for one to "0.12345", which has five
    fractional digits. *)
Lemma feeRate_four_digit_precision_counterexample :
  (exists o, column_options "feeRate" FeeTransaction_properties = Some o
     /\ col_precision o = Some 5
     /\ Decimal.parse "1.2345" = Some {| Decimal.unscaled := 12345; Decimal.scale := 4 |}
     /\ Decimal.fits_column o {| Decimal.unscaled := 12345; Decimal.scale := 4 |} = true
     /\ Decimal.fits 4 4 {| Decimal.unscaled := 12345; Decimal.scale := 4 |} = false)
  /\ feeRate (set_feeRate "0.12345" (fresh (ticking 0))) = "0.12345"
  /\ ~ (forall tx : FeeTransaction, exists o d,
          column_options "feeRate" FeeTransaction_properties = Some o
          /\ Decimal.parse (feeRate tx) = Some d
          /\ Decimal.fits_column o d = true).
Proof.
  split; [eexists; repeat split; reflexivity|]. split; [reflexivity|].
  intros Hall.
  destruct (Hall (set_feeRate "0.12345" (fresh (ticking 0)))) as (o & d & Ho & Hd & Hfit).
  injection Ho as <-. injection Hd as <-. discriminate Hfit.
Qed.

(** C6, as the code has it.  [tradeAmount] and [feeAmount] are kept as
    decimal strings, never as JavaScript numbers, in columns declared
    [decimal] with precision 20 and scale 7, seven fractional digits and
    twenty digits in all, which are the scale and precision of the core's
    Money; the amounts of a newly constructed FeeTransaction, "0", fit
    these columns. *)
Theorem money_columns_precision_20_scale_7 :
  exists o,
    column_options "tradeAmount" FeeTransaction_properties = Some o
    /\ column_options "feeAmount" FeeTransaction_properties = Some o
    /\ col_type o = TDecimal
    /\ col_precision o = Some (Z.of_nat FeeCore.MONEY_PRECISION)
    /\ col_scale o = Some (Z.of_nat FeeCore.MONEY_SCALE)
    /\ FeeCore.MONEY_PRECISION = 20%nat /\ FeeCore.MONEY_SCALE = 7%nat
    /\ (forall w, exists d,
          Decimal.parse (tradeAmount (fresh w)) = Some d
          /\ Decimal.parse (feeAmount (fresh w)) = Some d
          /\ Decimal.fits_column o d = true).
Proof.
  eexists; split; [reflexivity|]. repeat split.
  intros w. eexists; repeat split.
Qed.

(** C6 as stated fails.  The class does not keep every amount within the
    columns: [tradeAmount] is a string that any assignment can set, for
    one to "0.12345678", which has eight fractional digits.  Nor does the
    core's Money: the fee on 9999999999999.9999999 at the rate 9.9999 is
    beyond twenty digits. *)
Lemma money_every_value_counterexample :
  tradeAmount (set_tradeAmount "0.12345678" (fresh (ticking 0))) = "0.12345678"
  /\ ~ (forall tx : FeeTransaction, exists o d,
          column_options "tradeAmount" FeeTransaction_properties = Some o
          /\ Decimal.parse (tradeAmount tx) = Some d
          /\ Decimal.fits_column o d = true)
  /\ FeeCore.valid_money (10 ^ 20 - 1) /\ FeeCore.valid_ratio 99999
  /\ ~ FeeCore.valid_money (FeeCore.feeAmountOf (10 ^ 20 - 1) 99999).
Proof.
  split; [reflexivity|]. split.
  { intros Hall.
    destruct (Hall (set_tradeAmount "0.12345678" (fresh (ticking 0))))
      as (o & d & Ho & Hd & Hfit).
    injection Ho as <-. injection Hd as <-. discriminate Hfit. }
  split; [vm_compute; split; [discriminate | reflexivity]|].
  split; [vm_compute; reflexivity|].
  intros [_ Hlt]. vm_compute in Hlt. discriminate Hlt.
Qed.

(* ===================================================================== *)
(** * Nullable properties of a new record *)
(* ===================================================================== *)

(** C1.  The code at the failing input.  In every world
    [new FeeTransaction()] gives a record whose status is PENDING and whose
    [collectedAt] is already set, to the third clock reading of the
    constructor, although the column is declared nullable: "collectedAt is
    set if and only if status is COLLECTED" fails on every newly
    constructed record. *)
Theorem fresh_collectedAt_set_while_PENDING (w : World) :
  status (fresh w) = PENDING
  /\ collectedAt (fresh w) = Some (w_clock w (S (S (w_reads w))))
  /\ (exists o, column_options "collectedAt" FeeTransaction_properties = Some o
                /\ col_nullable o = true)
  /\ ~ (date_is_set (collectedAt (fresh w)) = true <-> status (fresh w) = COLLECTED).
Proof.
  split; [reflexivity|]. split; [reflexivity|].
  split; [eexists; split; reflexivity|].
  intros [Hset _]. specialize (Hset eq_refl). discriminate Hset.
Qed.


(* ===================================================================== *)
(** * requestRefund *)
(* ===================================================================== *)

(** C3. [requestRefund] is idempotent.  On a COLLECTED transaction the
    first call returns the record with status REFUNDED and writes that one
    status change; the second call returns the identical record and leaves
    the store, rows and journal, exactly as the first call left it.  On a
    transaction that is already REFUNDED the call is a no-op that returns
    the stored record, not an error. *)
Theorem requestRefund_idempotent (db : FeeCore.Persistence) (txId : string)
    (tx : FeeTransaction) :
  FeeCore.rows db !! txId = Some tx ->
  status tx = COLLECTED \/ status tx = REFUNDED ->
  exists tx1 db1,
    FeeCore.requestRefund txId db = (db1, inr tx1)
    /\ status tx1 = REFUNDED
    /\ FeeCore.requestRefund txId db1 = (db1, inr tx1)
    /\ (status tx = COLLECTED ->
        tx1 = set_status REFUNDED tx
        /\ FeeCore.rows db1 = <[txId := tx1]> (FeeCore.rows db)
        /\ FeeCore.journal db1
           = (FeeCore.journal db ++ [(txId, COLLECTED, REFUNDED)])%list)
    /\ (status tx = REFUNDED -> db1 = db /\ tx1 = tx).
Proof.
  intros Hrow [Hst | Hst].
  - exists (set_status REFUNDED tx). eexists.
    split.
    { unfold FeeCore.requestRefund, FeeCore.transition. rewrite Hrow, Hst. simpl.
      reflexivity. }
    split; [reflexivity|].
    split.
    { unfold FeeCore.requestRefund, FeeCore.transition. simpl.
      rewrite lookup_insert_eq. simpl. reflexivity. }
    split; [intros _; repeat split | rewrite Hst; discriminate].
  - exists tx, db.
    assert (Hcall : FeeCore.requestRefund txId db = (db, inr tx)).
    { unfold FeeCore.requestRefund, FeeCore.transition. rewrite Hrow, Hst. simpl.
      rewrite decide_True by exact Hst. reflexivity. }
    split; [exact Hcall|]. split; [exact Hst|]. split; [exact Hcall|].
    split; [rewrite Hst; discriminate | intros _; split; reflexivity].
Qed.

Lemma requestRefund_idempotent_witness :
  exists tx1 db1,
    FeeCore.requestRefund "tx-1" one_collected = (db1, inr tx1)
    /\ status tx1 = REFUNDED
    /\ FeeCore.requestRefund "tx-1" db1 = (db1, inr tx1).
Proof.
  destruct (requestRefund_idempotent one_collected "tx-1" collected_tx)
    as (tx1 & db1 & H1 & Hst & H2 & _).
  - reflexivity.
  - left. reflexivity.
  - exists tx1, db1. split; [exact H1|]. split; [exact Hst | exact H2].
Defined.

(* ===================================================================== *)
(** * Fee amounts *)
(* ===================================================================== *)

Section Rounding.
Import FeeCore.

(** [round_half_even] computes the half-to-even rounding. *)
Lemma round_half_even_correct (x d : Z) :
  0 < d -> is_half_even_rounding x d (round_half_even x d).
Proof.
  intros Hd. unfold is_half_even_rounding, round_half_even.
  pose proof (Z.div_mod x d ltac:(lia)) as Hdm.
  pose proof (Z.mod_pos_bound x d Hd) as Hr.
  set (q := x / d) in *. set (r := x mod d) in *.
  destruct (2 * r <? d) eqn:Hlo.
  - apply Z.ltb_lt in Hlo. split; lia.
  - apply Z.ltb_ge in Hlo.
    destruct (d <? 2 * r) eqn:Hhi.
    + apply Z.ltb_lt in Hhi. split; lia.
    + apply Z.ltb_ge in Hhi.
      destruct (Z.even q) eqn:Heven.
      * split; [lia | intros _; exact Heven].
      * split; [lia|]. intros _.
        replace (q + 1) with (Z.succ q) by lia.
        rewrite Z.even_succ, <- Z.negb_even, Heven. reflexivity.
Qed.

(** Rounding a quotient that is at most [t] gives at most [t]. *)
Lemma round_half_even_le (x d t : Z) :
  0 < d -> x <= t * d -> round_half_even x d <= t.
Proof.
  intros Hd Hx. unfold round_half_even.
  pose proof (Z.div_mod x d ltac:(lia)) as Hdm.
  pose proof (Z.mod_pos_bound x d Hd) as Hr.
  set (q := x / d) in *. set (r := x mod d) in *.
  assert (Hq : q <= t) by nia.
  destruct (2 * r <? d) eqn:Hlo; [exact Hq|].
  apply Z.ltb_ge in Hlo.
  assert (q < t) by nia.
  destruct (d <? 2 * r); [lia|]. destruct (Z.even q); lia.
Qed.

Lemma round_half_even_nonneg (x d : Z) :
  0 < d -> 0 <= x -> 0 <= round_half_even x d.
Proof.
  intros Hd Hx. unfold round_half_even.
  pose proof (Z.div_pos x d Hx Hd).
  destruct (2 * (x mod d) <? d); [lia|].
  destruct (d <? 2 * (x mod d)); [lia|]. destruct (Z.even (x / d)); lia.
Qed.
End Rounding.

(** C2, amended.  For every trade amount and every fee rate the fee
    amount is [tradeAmount * feeRate] rounded half-to-even to scale 7; and
    for every trade amount (a Money, hence not negative) and every fee rate
    of at most 1 it is at most the trade amount. *)
Theorem feeAmount_half_even_and_bounded (tradeAmount feeRate : Z) :
  FeeCore.is_half_even_rounding (tradeAmount * feeRate)
    (10 ^ Z.of_nat FeeCore.RATIO_SCALE) (FeeCore.feeAmountOf tradeAmount feeRate)
  /\ (0 <= tradeAmount ->
      feeRate <= FeeCore.RATIO_ONE ->
      FeeCore.feeAmountOf tradeAmount feeRate <= tradeAmount).
Proof.
  unfold FeeCore.feeAmountOf, FeeCore.multiplyByRate.
  pose proof (pow10_pos FeeCore.RATIO_SCALE) as Hd.
  split.
  - apply round_half_even_correct, Hd.
  - intros Ht Hr. apply round_half_even_le; [exact Hd|].
    unfold FeeCore.RATIO_ONE in Hr. nia.
Qed.

(** The spec's scenario: 1000.0000000 at rate 0.0010 gives 1.0000000. *)
Lemma feeAmount_half_even_and_bounded_witness :
  FeeCore.feeAmountOf 10000000000 10 = 10000000
  /\ FeeCore.feeAmountOf 10000000000 10 <= 10000000000.
Proof.
  split; [reflexivity|].
  apply (proj2 (feeAmount_half_even_and_bounded 10000000000 10));
    vm_compute; discriminate.
Defined.

(** C2 as stated fails for a rate above 1, which the [feeRate] column can
    hold: the trade amount 1.0000000 at rate 2.0000 gives the fee
    2.0000000. *)
Lemma feeAmount_le_tradeAmount_counterexample :
  FeeCore.valid_money 10000000 /\ FeeCore.valid_ratio 20000
  /\ FeeCore.feeAmountOf 10000000 20000 = 20000000
  /\ ~ (forall tradeAmount feeRate,
          FeeCore.valid_money tradeAmount -> FeeCore.valid_ratio feeRate ->
          FeeCore.is_half_even_rounding (tradeAmount * feeRate)
            (10 ^ Z.of_nat FeeCore.RATIO_SCALE) (FeeCore.feeAmountOf tradeAmount feeRate)
          /\ FeeCore.feeAmountOf tradeAmount feeRate <= tradeAmount).
Proof.
  assert (Hm : FeeCore.valid_money 10000000) by (vm_compute; split; [discriminate | reflexivity]).
  assert (Hr : FeeCore.valid_ratio 20000) by (vm_compute; reflexivity).
  split; [exact Hm|]. split; [exact Hr|]. split; [reflexivity|].
  intros Hclaim. destruct (Hclaim 10000000 20000 Hm Hr) as [_ Hle].
  vm_compute in Hle. apply Hle. reflexivity.
Qed.

(* ===================================================================== *)
(** * GlobalExceptionFilter.catch *)
(* ===================================================================== *)

Section CatchProperties.
Import GlobalExceptionFilter.
Variable toISOString : Date -> string.
Variable NODE_ENV : option string.

Lemma js_or_defined (a : JValue) (s : string) : js_or a (JStr s) <> JUndefined.
Proof.
  unfold js_or. destruct (truthy a) eqn:Ha; [|discriminate].
  intros ->. discriminate Ha.
Qed.

(** The status is the exception's own for an [HttpException], else 500. *)
Lemma classify_status exception :
  (classify exception).1.1
  = match exception with
    | ThrownHttp e => getStatus e
    | _ => INTERNAL_SERVER_ERROR
    end.
Proof.
  unfold classify.
  destruct exception as [e| |]; [destruct (getResponseBody e)|..]; reflexivity.
Qed.

Lemma classify_message_defined exception : (classify exception).1.2 <> JUndefined.
Proof.
  unfold classify.
  destruct exception as [e| |]; [destruct (getResponseBody e)|..]; simpl;
    try discriminate.
  apply js_or_defined.
Qed.

Lemma classify_details_object exception : exists o, (classify exception).2 = JObj o.
Proof.
  unfold classify.
  destruct exception as [e| |]; [destruct (getResponseBody e)|..]; simpl; eauto.
Qed.

(** The response that [catch] leaves behind, given the locals. *)
Lemma catch_unfold exception host w :
  (catch toISOString NODE_ENV exception host w).1
  = send_json
      ([("statusCode", JNum (classify exception).1.1);
        ("message", (classify exception).1.2);
        ("timestamp", JStr (toISOString (w_clock w (w_reads w))));
        ("path", JStr (url (getRequest host)))]
         ++ details_spread NODE_ENV (classify exception).2)
      (set_status_code (classify exception).1.1 (getResponse host)).
Proof.
  unfold catch. destruct (classify exception) as [[st msg] det]. reflexivity.
Qed.
End CatchProperties.

(** C8. For every exception handed to the filter: the response status is
    the exception's own status if it is an HttpException and 500
    otherwise; the JSON body carries statusCode (that same status),
    message, timestamp and path; and it carries details exactly when
    NODE_ENV is "development". *)
Theorem catch_response (toISOString : Date -> string) (NODE_ENV : option string)
    (exception : GlobalExceptionFilter.Thrown) (host : HttpContext) (w : World) :
  let response := (GlobalExceptionFilter.catch toISOString NODE_ENV exception host w).1 in
  statusCode response
  = match exception with
    | GlobalExceptionFilter.ThrownHttp e => GlobalExceptionFilter.getStatus e
    | _ => 500
    end
  /\ exists body, sent response = Some body
       /\ get_prop "statusCode" body = JNum (statusCode response)
       /\ json_has "statusCode" body = true
       /\ json_has "message" body = true
       /\ json_has "timestamp" body = true
       /\ json_has "path" body = true
       /\ (json_has "details" body = true <-> NODE_ENV = Some "development").
Proof.
  intros response. subst response. rewrite catch_unfold.
  pose proof (classify_status exception) as Hst.
  pose proof (classify_message_defined exception) as Hmsg.
  destruct (classify_details_object exception) as [det Hdet].
  destruct (GlobalExceptionFilter.classify exception) as [[st msg] d].
  simpl in Hst, Hmsg, Hdet. subst d.
  split; [exact Hst|].
  eexists; split; [reflexivity|]. simpl.
  repeat split; try reflexivity.
  - unfold json_has. simpl. destruct msg; try reflexivity. contradiction.
  - intros Hkey. unfold GlobalExceptionFilter.details_spread in Hkey.
    case_bool_decide; [assumption | discriminate Hkey].
  - intros Henv. unfold GlobalExceptionFilter.details_spread.
    rewrite bool_decide_eq_true_2 by exact Henv. reflexivity.
Qed.

(* ===================================================================== *)
(** * LoggingInterceptor.intercept *)
(* ===================================================================== *)

Section InterceptProperties.
Import LoggingInterceptor.
Context {A : Type}.

(** [tap] hands on every notification as it came, whatever the
    callback does to the world. *)
Lemma tap_delivers (next : A -> M unit) (source : Observable A) (w : World) :
  (tap next source w).1 = source.
Proof.
  revert w. induction source as [|n rest IH]; intros w; [reflexivity|].
  simpl. unfold mbind, M_bind.
  destruct (match n with Next v => next v | _ => mret tt end w) as [[] w1].
  specialize (IH w1). destruct (tap next rest w1) as [rest' w2]. simpl in *.
  subst rest'. reflexivity.
Qed.

(** A callback that writes one log line per value makes [tap] write one
    line per emitted value, and nothing else. *)
Lemma tap_logs (P : LogEntry -> Prop) (next : A -> M unit) (source : Observable A) :
  (forall v w, exists entry,
      w_log (next v w).2 = (w_log w ++ [entry])%list /\ P entry) ->
  forall w, exists entries,
    w_log (tap next source w).2 = (w_log w ++ entries)%list
    /\ length entries = length (emitted source)
    /\ Forall P entries.
Proof.
  intros Hnext. induction source as [|n rest IH]; intros w.
  - exists []. simpl. rewrite app_nil_r. repeat split. constructor.
  - simpl. unfold mbind, M_bind.
    destruct n as [v| |]; simpl.
    + destruct (Hnext v w) as (entry & Hlog & HP).
      destruct (next v w) as [[] w1]. simpl in Hlog.
      destruct (IH w1) as (entries & Hlog1 & Hlen & Hall).
      destruct (tap next rest w1) as [rest' w2]. simpl in *.
      exists (entry :: entries). rewrite Hlog1, Hlog, <- app_assoc. simpl.
      repeat split; [by rewrite Hlen | by constructor].
    + destruct (IH w) as (entries & Hlog1 & Hlen & Hall).
      destruct (tap next rest w) as [rest' w2]. simpl in *. eauto.
    + destruct (IH w) as (entries & Hlog1 & Hlen & Hall).
      destruct (tap next rest w) as [rest' w2]. simpl in *. eauto.
Qed.
End InterceptProperties.

(** C9. The logging interceptor passes the handler's observable through
    unchanged: the subscriber receives exactly the notifications of
    [next.handle()], so every value the handler emits arrives as it was
    emitted; all the interceptor adds is one debug line in the log per
    emitted value. *)
Theorem intercept_transparent (A : Type) (context : HttpContext)
    (next : LoggingInterceptor.CallHandler A) (w : World) :
  (LoggingInterceptor.intercept context next w).1 = LoggingInterceptor.handle next
  /\ LoggingInterceptor.emitted (LoggingInterceptor.intercept context next w).1
     = LoggingInterceptor.emitted (LoggingInterceptor.handle next)
  /\ exists entries,
       w_log (LoggingInterceptor.intercept context next w).2 = (w_log w ++ entries)%list
       /\ length entries
          = length (LoggingInterceptor.emitted (LoggingInterceptor.handle next))
       /\ Forall (fun entry => log_level entry = LDebug) entries.
Proof.
  assert (H : (LoggingInterceptor.intercept context next w).1
              = LoggingInterceptor.handle next).
  { unfold LoggingInterceptor.intercept, mbind, M_bind. simpl.
    apply tap_delivers. }
  split; [exact H|]. split; [rewrite H; reflexivity|].
  unfold LoggingInterceptor.intercept, mbind, M_bind. simpl.
  match goal with
  | |- context [LoggingInterceptor.tap ?f ?src ?w1] =>
      destruct (tap_logs (fun entry => log_level entry = LDebug) f src
                  ltac:(intros v w0; eexists; split; reflexivity) w1)
        as (entries & Hlog & Hlen & Hall)
  end.
  exists entries. rewrite Hlog. simpl. auto.
Qed.

(* ===================================================================== *)
(** * The User entity in storage *)
(* ===================================================================== *)

Section UserTable.
Import Storage.

(** A column that is neither nullable nor defaulted stores a value. *)
Lemma column_value_not_null name o e v :
  col_nullable o = false -> col_default o = None ->
  column_value name o e = inr v -> v <> CNull.
Proof.
  unfold column_value. intros -> ->.
  destruct (e !! name) as [[]|]; intros [= <-]; discriminate.
Qed.

Lemma taken_false name v table i r :
  taken name v table = false -> table !! i = Some r -> r !! name <> Some v.
Proof.
  unfold taken. intros Hno Hi Hv.
  apply not_true_iff_false in Hno. apply Hno.
  apply existsb_exists. exists r. split.
  - apply list_elem_of_In, list_elem_of_lookup. eauto.
  - apply bool_decide_eq_true_2, Hv.
Qed.

Lemma unique_in_nil c : unique_in c [].
Proof. split; intros *; rewrite lookup_nil; discriminate. Qed.

Lemma unique_in_snoc c table row v :
  unique_in c table ->
  row !! c = Some v -> v <> CNull -> taken c v table = false ->
  unique_in c (table ++ [row]).
Proof.
  intros [Hval Huniq] Hrow Hnn Hfree. split.
  - intros i r Hi. apply lookup_snoc_Some in Hi as [[_ Hi] | [_ <-]]; eauto.
  - intros i j ri rj Hi Hj Heq.
    apply lookup_snoc_Some in Hi as [[Hli Hi] | [-> <-]];
      apply lookup_snoc_Some in Hj as [[Hlj Hj] | [-> <-]].
    + eapply Huniq; eauto.
    + exfalso. apply (taken_false _ _ _ _ _ Hfree Hi). congruence.
    + exfalso. apply (taken_false _ _ _ _ _ Hfree Hj). congruence.
    + reflexivity.
Qed.

(** The cells of a User that passes the NOT NULL checks. *)
Lemma row_cells_User e row :
  row_cells User_properties e = inr row ->
  exists vu vw,
    e !! "username" = Some vu /\ vu <> CNull
    /\ e !! "wallet_address" = Some vw /\ vw <> CNull
    /\ e !! "reputation_score" <> Some CNull
    /\ row = <["username" := vu]> (<["wallet_address" := vw]>
               (<["bio" := default CNull (e !! "bio")]>
                  (<["reputation_score" := default (CNum 0) (e !! "reputation_score")]> ∅))).
Proof.
  simpl. unfold column_value. simpl.
  destruct (e !! "username") as [vu|] eqn:Hu; [|discriminate].
  destruct (decide (vu = CNull)) as [->|Hun]; [discriminate|].
  replace (match vu with CNull => inl (NotNullViolation "username") | _ => inr vu end)
    with (@inr StorageError Cell vu) by (destruct vu; done).
  destruct (e !! "wallet_address") as [vw|] eqn:Hw; [|discriminate].
  destruct (decide (vw = CNull)) as [->|Hwn]; [discriminate|].
  replace (match vw with CNull => inl (NotNullViolation "wallet_address") | _ => inr vw end)
    with (@inr StorageError Cell vw) by (destruct vw; done).
  intros Hrow. exists vu, vw. repeat (split; [done|]).
  destruct (e !! "bio") as [[]|], (e !! "reputation_score") as [[]|];
    simpl in *; try discriminate; (split; [done|]); by injection Hrow as <-.
Qed.

(** The unique columns of a User row are its username, then its wallet
    address. *)
Lemma unique_conflict_User table row vu vw :
  row !! "username" = Some vu -> vu <> CNull ->
  row !! "wallet_address" = Some vw -> vw <> CNull ->
  unique_conflict User_properties table row
  = if taken "username" vu table then Some (UniqueViolation "username")
    else if taken "wallet_address" vw table
         then Some (UniqueViolation "wallet_address")
         else None.
Proof.
  intros Hu Hun Hw Hwn. simpl. rewrite Hu, Hw.
  rewrite (bool_decide_eq_true_2 _ Hun), (bool_decide_eq_true_2 _ Hwn). simpl.
  destruct (taken "username" vu table); [reflexivity|].
  destruct (taken "wallet_address" vw table); [reflexivity|].
  destruct (row !! "bio"), (row !! "reputation_score"); reflexivity.
Qed.

(** The cells of a saved User, from the entity handed in. *)
Lemma build_row_User_cells table e row :
  build_row User_properties table e = inr row ->
  exists vu vw,
    e !! "username" = Some vu /\ vu <> CNull /\ taken "username" vu table = false
    /\ e !! "wallet_address" = Some vw /\ vw <> CNull
    /\ taken "wallet_address" vw table = false
    /\ e !! "reputation_score" <> Some CNull
    /\ row = <["username" := vu]> (<["wallet_address" := vw]>
               (<["bio" := default CNull (e !! "bio")]>
                  (<["reputation_score" := default (CNum 0) (e !! "reputation_score")]> ∅))).
Proof.
  unfold build_row.
  destruct (row_cells User_properties e) as [|cells] eqn:Hcells; [discriminate|].
  destruct (row_cells_User _ _ Hcells) as (vu & vw & Hu & Hun & Hw & Hwn & Hr & Hrow).
  rewrite (unique_conflict_User table cells vu vw) by (subst cells; by simplify_map_eq).
  destruct (taken "username" vu table) eqn:Htu; [discriminate|].
  destruct (taken "wallet_address" vw table) eqn:Htw; [discriminate|].
  intros [= <-]. exists vu, vw. done.
Qed.

(** What a successful save of a User writes. *)
Lemma build_row_User table e row :
  build_row User_properties table e = inr row ->
  (exists v, row !! "username" = Some v /\ v <> CNull
             /\ taken "username" v table = false)
  /\ (exists v, row !! "wallet_address" = Some v /\ v <> CNull
                /\ taken "wallet_address" v table = false)
  /\ (e !! "reputation_score" = None -> row !! "reputation_score" = Some (CNum 0)).
Proof.
  intros (vu & vw & Hu & Hun & Htu & Hw & Hwn & Htw & _ & ->)%build_row_User_cells.
  split; [|split].
  - exists vu. by simplify_map_eq.
  - exists vw. by simplify_map_eq.
  - intros Hundef. rewrite Hundef. by simplify_map_eq.
Qed.

Lemma reachable_User_unique table :
  reachable User_properties table ->
  unique_in "username" table /\ unique_in "wallet_address" table.
Proof.
  induction 1 as [|table e table' _ [IHu IHw] Hins].
  - split; apply unique_in_nil.
  - unfold insert in Hins.
    destruct (build_row User_properties table e) as [|row] eqn:Hrow; [discriminate|].
    injection Hins as <-.
    apply build_row_User in Hrow as [(vu & Hu & Hun & Hut) [(vw & Hw & Hwn & Hwt) _]].
    split; eapply unique_in_snoc; eauto.
Qed.
End UserTable.

(** C10. In the User entity [username] and [wallet_address] are each
    declared unique, so in any table that saves have built no two rows
    share a username or share a wallet address; and [reputation_score] is
    declared with default 0, so a User saved without one is stored with
    [reputation_score] 0. *)
Theorem User_unique_columns_and_default_score :
  (exists o, column_options "username" User_properties = Some o
             /\ col_unique o = true)
  /\ (exists o, column_options "wallet_address" User_properties = Some o
                /\ col_unique o = true)
  /\ (exists o, column_options "reputation_score" User_properties = Some o
                /\ col_default o = Some (JNum 0))
  /\ (forall table, Storage.reachable User_properties table ->
        forall (i j : nat) (ri rj : gmap string Storage.Cell),
          table !! i = Some ri -> table !! j = Some rj ->
          ri !! "username" = rj !! "username"
          \/ ri !! "wallet_address" = rj !! "wallet_address" ->
          i = j)
  /\ (forall table (e : gmap string Storage.Cell) table',
        Storage.insert User_properties table e = inr table' ->
        e !! "reputation_score" = None ->
        exists row, table' = (table ++ [row])%list
                    /\ row !! "reputation_score" = Some (Storage.CNum 0)).
Proof.
  split; [eexists; split; reflexivity|].
  split; [eexists; split; reflexivity|].
  split; [eexists; split; reflexivity|].
  split.
  - intros table Hreach i j ri rj Hi Hj Heq.
    apply reachable_User_unique in Hreach as [[_ Hu] [_ Hw]].
    destruct Heq as [Heq | Heq]; [eapply Hu | eapply Hw]; eauto.
  - intros table e table' Hins Hundef. unfold Storage.insert in Hins.
    destruct (Storage.build_row User_properties table e) as [|row] eqn:Hrow;
      [discriminate|].
    injection Hins as <-. exists row. split; [reflexivity|].
    apply build_row_User in Hrow as (_ & _ & Hscore). apply Hscore, Hundef.
Qed.

(** Alice, saved into the empty table without a reputation score, is
    stored with score 0. *)
Lemma User_unique_columns_and_default_score_witness :
  exists row,
    Storage.insert User_properties [] alice = inr [row]
    /\ row !! "reputation_score" = Some (Storage.CNum 0).
Proof.
  destruct User_unique_columns_and_default_score as (_ & _ & _ & _ & Hdefault).
  destruct (Storage.insert User_properties [] alice) as [err|table'] eqn:Hins.
  { vm_compute in Hins. discriminate Hins. }
  destruct (Hdefault [] alice table' Hins eq_refl) as (row & -> & Hrow).
  exists row. split; [reflexivity | exact Hrow].
Defined.

(** With alice stored, a second user asking for her username is refused. *)
Example duplicate_username_refused :
  exists table,
    Storage.insert User_properties [] alice = inr table
    /\ Storage.insert User_properties table mallory
       = inl (Storage.UniqueViolation "username").
Proof. eexists. split; vm_compute; reflexivity. Qed.

(* ===================================================================== *)
(** * Worked examples *)
(* ===================================================================== *)

(** Ties go to the even neighbour, on both sides of zero. *)
Example round_half_even_ties :
  FeeCore.round_half_even 25 10 = 2
  /\ FeeCore.round_half_even 35 10 = 4
  /\ FeeCore.round_half_even (-25) 10 = -2
  /\ FeeCore.round_half_even 26 10 = 3
  /\ FeeCore.multiplyByRate 5000 1 = 0
  /\ FeeCore.multiplyByRate 15000 1 = 2.
Proof. repeat split. Qed.

(** Two rejections, each followed by a retry, then a confirmation: the
    record ends COLLECTED with two retries counted, the confirmation time
    stamped and no failure reason left. *)
Example settle_after_two_failures :
  let tx := FeeCore.run 3
              [FeeCore.SettlementFailed "timeout"; FeeCore.RetryAttempt;
               FeeCore.SettlementFailed "timeout"; FeeCore.RetryAttempt;
               FeeCore.SettlementConfirmed 1700000009000]
              (fresh (ticking 1700000000000)) in
  status tx = COLLECTED /\ retryCount tx = 2
  /\ collectedAt tx = Some 1700000009000 /\ failureReason tx = None.
Proof. repeat split. Qed.

(** A refund asked of a PENDING record is refused and changes nothing. *)
Example refund_of_pending_refused :
  FeeCore.transition 3 (fresh (ticking 0)) FeeCore.RefundRequested
  = inl FeeCore.InvalidStateTransition.
Proof. reflexivity. Qed.

(** A 404 raised with an object response, in production and in
    development. *)
Example catch_not_found :
  let e := GlobalExceptionFilter.ThrownHttp
             {| GlobalExceptionFilter.getStatus := 404;
                GlobalExceptionFilter.getResponseBody :=
                  inr [("statusCode", JNum 404); ("message", JStr "Cannot GET /nope")];
                GlobalExceptionFilter.http_message := "Cannot GET /nope" |} in
  let host := {| getRequest := {| method := "GET"; url := "/nope" |};
                 getResponse := {| statusCode := 200; sent := None |} |} in
  (GlobalExceptionFilter.catch pretty (Some "production") e host (ticking 5)).1
  = {| statusCode := 404;
       sent := Some [("statusCode", JNum 404); ("message", JStr "Cannot GET /nope");
                     ("timestamp", JStr "5"); ("path", JStr "/nope")] |}
  /\ (GlobalExceptionFilter.catch pretty (Some "development") e host (ticking 5)).1
     = {| statusCode := 404;
          sent := Some [("statusCode", JNum 404); ("message", JStr "Cannot GET /nope");
                        ("timestamp", JStr "5"); ("path", JStr "/nope");
                        ("details", JObj [("statusCode", JNum 404);
                                          ("message", JStr "Cannot GET /nope")])] |}.
Proof. split; vm_compute; reflexivity. Qed.

(** A value thrown that is no [Error] at all: 500 with the stock message. *)
Example catch_thrown_string :
  let host := {| getRequest := {| method := "POST"; url := "/signals" |};
                 getResponse := {| statusCode := 200; sent := None |} |} in
  (GlobalExceptionFilter.catch pretty None
     (GlobalExceptionFilter.ThrownOther (JStr "boom")) host (ticking 7)).1
  = {| statusCode := 500;
       sent := Some [("statusCode", JNum 500); ("message", JStr "Internal server error");
                     ("timestamp", JStr "7"); ("path", JStr "/signals")] |}.
Proof. vm_compute. reflexivity. Qed.

(** A handler that sets the status to 201, emits one value and
    completes: the value arrives untouched and one debug line is written,
    3 ms after the start, with the status read when the value arrived. *)
Example intercept_one_value :
  let context := {| getRequest := {| method := "GET"; url := "/health" |};
                    getResponse := {| statusCode := 200; sent := None |} |} in
  let next := {| LoggingInterceptor.handle :=
                   [LoggingInterceptor.Next (JStr "ok"); LoggingInterceptor.Complete] |} in
  let w := {| w_clock := fun n => 1000 + 3 * Z.of_nat n; w_reads := 0; w_log := [];
              w_statusCode := fun _ => 201; w_status_reads := 0 |} in
  (LoggingInterceptor.intercept context next w).1
  = [LoggingInterceptor.Next (JStr "ok"); LoggingInterceptor.Complete]
  /\ w_log (LoggingInterceptor.intercept context next w).2
     = [{| log_level := LDebug; log_context := "LoggingInterceptor";
           log_message := "[GET] /health - 201 - 3ms"; log_params := [] |}].
Proof. split; vm_compute; reflexivity. Qed.

(* ===================================================================== *)
(** * The application configuration: properties *)
(* ===================================================================== *)

Section AppConfigProperties.
Import AppConfig.

Lemma env_or_nonempty value fallback :
  fallback <> "" -> env_or value fallback <> "".
Proof.
  intros Hf. unfold env_or. destruct value as [s|]; [|exact Hf].
  destruct (String.eqb s "") eqn:Hs; [exact Hf|]. apply String.eqb_neq, Hs.
Qed.

Lemma env_or_set s fallback : s <> "" -> env_or (Some s) fallback = s.
Proof. intros Hs. unfold env_or. apply String.eqb_neq in Hs. rewrite Hs. reflexivity. Qed.

Lemma digit_value_char (d : N) :
  (d < 10)%N -> digit_value (pretty_N_char d) = Some (Z.of_N d).
Proof.
  intros Hd.
  assert (d = 0 \/ d = 1 \/ d = 2 \/ d = 3 \/ d = 4 \/ d = 5 \/ d = 6 \/ d = 7
          \/ d = 8 \/ d = 9)%N as Hcases by lia.
  repeat (destruct Hcases as [-> | Hcases]; [reflexivity|]). subst d. reflexivity.
Qed.

Lemma digit_not_space c d : digit_value c = Some d -> is_space c = false.
Proof.
  unfold digit_value, is_space.
  destruct (_ && _) eqn:Hrange; [|discriminate]. intros _.
  apply andb_true_iff in Hrange as [Hlo%Z.leb_le Hhi%Z.leb_le].
  apply orb_false_iff. split.
  - apply andb_false_iff. right. apply Nat.leb_gt. lia.
  - apply Nat.eqb_neq. lia.
Qed.

Lemma digit_not_sign c d :
  digit_value c = Some d -> Ascii.eqb c "-" = false /\ Ascii.eqb c "+" = false.
Proof.
  intros Hd. split; apply Ascii.eqb_neq; intros ->; vm_compute in Hd; discriminate.
Qed.

(** The digits of a positive number are read back as that number. *)
Lemma digits_prefix_pretty (x : N) (s : string) :
  (0 < x)%N ->
  digits_prefix (pretty_N_go x s) None = digits_prefix s (Some (Z.of_N x)).
Proof.
  revert s. induction (N.lt_wf_0 x) as [x _ IH]. intros s Hx.
  rewrite pretty_N_go_step by exact Hx.
  pose proof (N.mod_lt x 10 ltac:(lia)) as Hmod.
  pose proof (N.div_mod x 10 ltac:(lia)) as Hdm.
  destruct (decide (x `div` 10 = 0)%N) as [Hz|Hnz].
  - rewrite Hz, pretty_N_go_0. simpl. rewrite (digit_value_char _ Hmod).
    do 2 f_equal. lia.
  - rewrite IH; [| apply N.div_lt; lia | lia].
    simpl. rewrite (digit_value_char _ Hmod). do 2 f_equal. lia.
Qed.

(** They start with a digit. *)
Lemma pretty_N_go_head (x : N) (s : string) :
  (0 < x)%N ->
  exists c rest d, pretty_N_go x s = String c rest /\ digit_value c = Some d.
Proof.
  revert s. induction (N.lt_wf_0 x) as [x _ IH]. intros s Hx.
  rewrite pretty_N_go_step by exact Hx.
  pose proof (N.mod_lt x 10 ltac:(lia)) as Hmod.
  destruct (decide (x `div` 10 = 0)%N) as [Hz|Hnz].
  - rewrite Hz, pretty_N_go_0. do 3 eexists. split; [reflexivity|].
    apply digit_value_char, Hmod.
  - apply IH; [apply N.div_lt; lia | apply N.neq_0_lt_0, Hnz].
Qed.

Lemma pretty_N_go_app (x : N) (s t : string) :
  pretty_N_go x s +:+ t = pretty_N_go x (s +:+ t).
Proof.
  revert s. induction (N.lt_wf_0 x) as [x _ IH]. intros s.
  destruct (decide (0 < x)%N) as [Hx|Hx].
  - rewrite (pretty_N_go_step x s), (pretty_N_go_step x (s +:+ t)) by exact Hx.
    rewrite IH; [reflexivity|].
    apply N.div_lt; lia.
  - replace x with 0%N by lia. rewrite !pretty_N_go_0. reflexivity.
Qed.

Lemma digits_prefix_stop (s : string) (n : Z) :
  no_digit_ahead s = true -> digits_prefix s (Some n) = Some n.
Proof.
  destruct s as [|c rest]; [reflexivity|]. simpl.
  destruct (digit_value c); [discriminate | reflexivity].
Qed.

(** [parseInt] on a string that starts with neither white space nor a
    sign reads the digits from its first character. *)
Lemma parseInt_unsigned c rest :
  is_space c = false -> Ascii.eqb c "-" = false -> Ascii.eqb c "+" = false ->
  parseInt (String c rest)
  = match digits_prefix (String c rest) None with
    | Some n => Num (1 * n)
    | None => NaN
    end.
Proof.
  intros Hsp Hminus Hplus. unfold parseInt. cbn [skip_space].
  rewrite Hsp, Hminus, Hplus. reflexivity.
Qed.

Lemma parseInt_minus rest :
  parseInt (String "-" rest)
  = match digits_prefix rest None with
    | Some n => Num (-1 * n)
    | None => NaN
    end.
Proof. reflexivity. Qed.

(** [parseInt] on an unsigned decimal numeral followed by a non-digit. *)
Lemma parseInt_positive (p : positive) (tail : string) :
  no_digit_ahead tail = true ->
  pretty (N.pos p) +:+ tail <> ""
  /\ parseInt (pretty (N.pos p) +:+ tail) = Num (Z.pos p)
  /\ parseInt ("-" +:+ pretty (N.pos p) +:+ tail) = Num (Z.neg p).
Proof.
  intros Htail. unfold pretty, pretty_N. rewrite decide_False by discriminate.
  assert (Happ : pretty_N_go (N.pos p) "" +:+ tail = pretty_N_go (N.pos p) tail)
    by apply pretty_N_go_app.
  rewrite Happ. clear Happ.
  pose proof (digits_prefix_pretty (N.pos p) tail ltac:(lia)) as Hdigits.
  rewrite (digits_prefix_stop _ _ Htail) in Hdigits.
  destruct (pretty_N_go_head (N.pos p) tail ltac:(lia)) as (c & rest & d & Hhead & Hc).
  pose proof (digit_not_space _ _ Hc) as Hsp.
  destruct (digit_not_sign _ _ Hc) as [Hminus Hplus].
  split; [rewrite Hhead; discriminate|]. split.
  - rewrite Hhead, (parseInt_unsigned _ _ Hsp Hminus Hplus), <- Hhead, Hdigits.
    reflexivity.
  - change ("-" +:+ pretty_N_go (N.pos p) tail)
      with (String "-" (pretty_N_go (N.pos p) tail)).
    rewrite parseInt_minus, Hdigits. reflexivity.
Qed.

End AppConfigProperties.

(** X1. Whatever the environment, none of the string settings of the
    configuration is empty: a variable that is unset or empty gives way to
    the built-in default. *)
Theorem appConfig_strings_never_empty (env : gmap string string) :
  AppConfig.nodeEnv (AppConfig.appConfig env) <> ""
  /\ AppConfig.host (AppConfig.appConfig env) <> ""
  /\ AppConfig.apiPrefix (AppConfig.appConfig env) <> ""
  /\ AppConfig.apiVersion (AppConfig.appConfig env) <> ""
  /\ AppConfig.level (AppConfig.logger (AppConfig.appConfig env)) <> "".
Proof. repeat split; apply env_or_nonempty; discriminate. Qed.

(** X2. A PORT that starts with a decimal integer (of a size that a
    JavaScript number holds exactly) gives that integer as the port,
    whatever non-digit text follows it. *)
Theorem appConfig_port_reads_decimal (env : gmap string string) (n : Z)
    (tail : string) :
  Z.abs n <= 2 ^ 53 ->
  env !! "PORT" = Some (pretty n +:+ tail) ->
  AppConfig.no_digit_ahead tail = true ->
  AppConfig.port (AppConfig.appConfig env) = AppConfig.Num n.
Proof.
  intros _ Hport Htail. unfold AppConfig.appConfig. simpl. rewrite Hport.
  destruct n as [|p|p]; unfold pretty, pretty_Z.
  - change ("0" +:+ tail) with (String "0" tail).
    rewrite env_or_set by discriminate.
    rewrite parseInt_unsigned by reflexivity.
    change (AppConfig.digits_prefix (String "0" tail) None)
      with (AppConfig.digits_prefix tail (Some 0)).
    rewrite (digits_prefix_stop tail 0 Htail). reflexivity.
  - destruct (parseInt_positive p tail Htail) as (Hne & Hpos & _).
    change (pretty p) with (pretty (N.pos p)).
    rewrite env_or_set by exact Hne. exact Hpos.
  - destruct (parseInt_positive p tail Htail) as (_ & _ & Hneg).
    change (pretty p) with (pretty (N.pos p)).
    rewrite env_or_set by discriminate. exact Hneg.
Qed.

Lemma appConfig_port_reads_decimal_witness :
  AppConfig.port (AppConfig.appConfig {[ "PORT" := "8080abc" ]}) = AppConfig.Num 8080.
Proof.
  apply (appConfig_port_reads_decimal {[ "PORT" := "8080abc" ]} 8080 "abc");
    [vm_compute; discriminate | reflexivity | reflexivity].
Defined.

(** X3. The default port 3000 stands in only for a PORT that is unset or
    empty: a PORT that starts with a character no number can start with
    makes the port NaN. *)
Theorem appConfig_port_default_or_NaN (env : gmap string string) :
  (env !! "PORT" = None \/ env !! "PORT" = Some "" ->
   AppConfig.port (AppConfig.appConfig env) = AppConfig.Num 3000)
  /\ (forall c rest,
        env !! "PORT" = Some (String c rest) ->
        AppConfig.starts_no_number c = true ->
        AppConfig.port (AppConfig.appConfig env) = AppConfig.NaN).
Proof.
  split.
  - intros [H | H]; unfold AppConfig.appConfig; simpl; rewrite H; reflexivity.
  - intros c rest Hport Hc. unfold AppConfig.appConfig. simpl. rewrite Hport.
    rewrite env_or_set by discriminate.
    unfold AppConfig.starts_no_number in Hc.
    apply andb_true_iff in Hc as [Hc Hdigit].
    apply andb_true_iff in Hc as [Hc Hplus%negb_true_iff].
    apply andb_true_iff in Hc as [Hc Hminus%negb_true_iff].
    apply andb_true_iff in Hc as [_ Hspace%negb_true_iff].
    rewrite (parseInt_unsigned _ _ Hspace Hminus Hplus). cbn [AppConfig.digits_prefix].
    destruct (AppConfig.digit_value c); [discriminate | reflexivity].
Qed.

Lemma appConfig_port_default_or_NaN_witness :
  AppConfig.port (AppConfig.appConfig ∅) = AppConfig.Num 3000
  /\ AppConfig.port (AppConfig.appConfig {[ "PORT" := "http" ]}) = AppConfig.NaN.
Proof.
  split.
  - apply (appConfig_port_default_or_NaN ∅). left. reflexivity.
  - apply (proj2 (appConfig_port_default_or_NaN {[ "PORT" := "http" ]}) "h"%char "ttp");
      reflexivity.
Defined.

Section SplitProperties.
Import AppConfig.

Lemma split_nonempty sep s : split sep s <> [].
Proof.
  destruct s as [|c rest]; simpl; [discriminate|].
  destruct (Ascii.eqb c sep); [discriminate|].
  destruct (split sep rest); discriminate.
Qed.

(** Joining the pieces with the separator gives the string back. *)
Lemma concat_split sep s : String.concat (String sep "") (split sep s) = s.
Proof.
  induction s as [|c rest IH]; [reflexivity|]. simpl split.
  destruct (Ascii.eqb c sep) eqn:Hc.
  - apply Ascii.eqb_eq in Hc as ->.
    pose proof (split_nonempty sep rest) as Hne.
    destruct (split sep rest) as [|piece more]; [contradiction|].
    simpl. simpl in IH. rewrite IH. reflexivity.
  - pose proof (split_nonempty sep rest) as Hne.
    destruct (split sep rest) as [|piece more]; [contradiction|].
    destruct more as [|piece' more]; simpl in *; rewrite <- IH; reflexivity.
Qed.

(** No piece holds the separator. *)
Lemma split_pieces_clean sep s :
  Forall (fun piece => ~ contains_char sep piece) (split sep s).
Proof.
  induction s as [|c rest IH]; simpl.
  - constructor; [intros [] | constructor].
  - destruct (Ascii.eqb c sep) eqn:Hc.
    + constructor; [intros [] | exact IH].
    + pose proof (split_nonempty sep rest) as Hne.
      destruct (split sep rest) as [|piece more]; [contradiction|].
      apply Forall_cons in IH as [Hpiece Hmore].
      constructor; [|exact Hmore].
      intros [-> | Hin]; [|exact (Hpiece Hin)].
      rewrite Ascii.eqb_refl in Hc. discriminate.
Qed.

End SplitProperties.

(** X4. When CORS_ORIGIN is set, the allowed origins are its
    comma-separated pieces: there is at least one, none holds a comma, and
    joined with commas they give the variable back. *)
Theorem appConfig_cors_origin_pieces (env : gmap string string) (s : string) :
  env !! "CORS_ORIGIN" = Some s ->
  AppConfig.origin (AppConfig.cors (AppConfig.appConfig env)) <> []
  /\ String.concat "," (AppConfig.origin (AppConfig.cors (AppConfig.appConfig env))) = s
  /\ Forall (fun piece => ~ contains_char ","%char piece)
       (AppConfig.origin (AppConfig.cors (AppConfig.appConfig env))).
Proof.
  intros Hset. unfold AppConfig.appConfig. simpl. rewrite Hset.
  split; [apply split_nonempty|]. split; [apply concat_split | apply split_pieces_clean].
Qed.

Lemma appConfig_cors_origin_pieces_witness :
  AppConfig.origin (AppConfig.cors (AppConfig.appConfig
    {[ "CORS_ORIGIN" := "https://a.example,https://b.example" ]}))
  = ["https://a.example"; "https://b.example"]
  /\ String.concat "," (AppConfig.origin (AppConfig.cors (AppConfig.appConfig
       {[ "CORS_ORIGIN" := "https://a.example,https://b.example" ]})))
     = "https://a.example,https://b.example".
Proof.
  split; [reflexivity|].
  apply (appConfig_cors_origin_pieces
           {[ "CORS_ORIGIN" := "https://a.example,https://b.example" ]}).
  reflexivity.
Defined.

(** X5. The logger has no transport exactly when the configuration's
    [nodeEnv] is "production": the two settings, read from NODE_ENV in
    different ways, never disagree. *)
Theorem appConfig_transport_iff_production (env : gmap string string) :
  AppConfig.transport (AppConfig.logger (AppConfig.appConfig env)) = None
  <-> AppConfig.nodeEnv (AppConfig.appConfig env) = "production".
Proof.
  unfold AppConfig.appConfig. simpl. case_bool_decide as Henv.
  - rewrite Henv. split; reflexivity.
  - split; [discriminate|]. intros Hprod. exfalso. apply Henv.
    unfold AppConfig.env_or in Hprod.
    destruct (env !! "NODE_ENV") as [v|]; [|discriminate].
    destruct (String.eqb v ""); [discriminate | congruence].
Qed.

Section FilterAndConfig.
Import GlobalExceptionFilter.

(** Whether the body carries [details] is decided by NODE_ENV alone. *)
Lemma catch_details toISOString NODE_ENV exception host w :
  response_has "details" (catch toISOString NODE_ENV exception host w).1
  = bool_decide (NODE_ENV = Some "development").
Proof.
  rewrite catch_unfold. unfold response_has, send_json. simpl.
  destruct (classify_details_object exception) as [det ->].
  unfold details_spread. case_bool_decide; reflexivity.
Qed.

End FilterAndConfig.

(** X6. The exception filter sends [details] only where the
    configuration's [nodeEnv] is "development"; but not everywhere it is:
    with NODE_ENV unset or empty the configuration says "development"
    while the filter, which tests the variable itself, sends no
    [details]. *)
Theorem filter_details_versus_nodeEnv (toISOString : Date -> string)
    (env : gmap string string) (exception : GlobalExceptionFilter.Thrown)
    (host : HttpContext) (w : World) :
  (response_has "details"
     (GlobalExceptionFilter.catch toISOString (env !! "NODE_ENV") exception host w).1
   = true ->
   AppConfig.nodeEnv (AppConfig.appConfig env) = "development")
  /\ (env !! "NODE_ENV" = None \/ env !! "NODE_ENV" = Some "" ->
      AppConfig.nodeEnv (AppConfig.appConfig env) = "development"
      /\ response_has "details"
           (GlobalExceptionFilter.catch toISOString (env !! "NODE_ENV") exception host w).1
         = false).
Proof.
  rewrite catch_details. unfold AppConfig.appConfig. simpl. split.
  - intros Hdev%bool_decide_eq_true. rewrite Hdev. reflexivity.
  - intros [Hunset | Hempty].
    + rewrite Hunset. split; reflexivity.
    + rewrite Hempty. split; reflexivity.
Qed.

Lemma filter_details_versus_nodeEnv_witness :
  AppConfig.nodeEnv (AppConfig.appConfig ∅) = "development"
  /\ response_has "details"
       (GlobalExceptionFilter.catch pretty ((∅ : gmap string string) !! "NODE_ENV")
          (GlobalExceptionFilter.ThrownError "TypeError" "x is undefined" (JStr "at f"))
          {| getRequest := {| method := "GET"; url := "/signals" |};
             getResponse := {| statusCode := 200; sent := None |} |}
          (ticking 0)).1
     = false.
Proof.
  apply (proj2 (filter_details_versus_nodeEnv pretty ∅
                  (GlobalExceptionFilter.ThrownError "TypeError" "x is undefined" (JStr "at f"))
                  {| getRequest := {| method := "GET"; url := "/signals" |};
                     getResponse := {| statusCode := 200; sent := None |} |}
                  (ticking 0))).
  left. reflexivity.
Defined.

(* ===================================================================== *)
(** * GlobalExceptionFilter.catch: further properties *)
(* ===================================================================== *)

Section CatchFurther.
Import GlobalExceptionFilter.
Variable toISOString : Date -> string.
Variable NODE_ENV : option string.


Lemma details_spread_off details :
  NODE_ENV <> Some "development" -> details_spread NODE_ENV details = [].
Proof. intros Hoff. unfold details_spread. rewrite bool_decide_eq_false_2; done. Qed.

End CatchFurther.

(** X7. The body that the filter sends has the keys statusCode, message,
    timestamp and path, in that order, followed by details in development,
    and no other key. *)
Theorem catch_body_keys (toISOString : Date -> string) (NODE_ENV : option string)
    (exception : GlobalExceptionFilter.Thrown) (host : HttpContext) (w : World) :
  exists body,
    sent (GlobalExceptionFilter.catch toISOString NODE_ENV exception host w).1 = Some body
    /\ keys body
       = (["statusCode"; "message"; "timestamp"; "path"]
            ++ (if bool_decide (NODE_ENV = Some "development") then ["details"] else []))%list.
Proof.
  rewrite catch_unfold. eexists. split; [reflexivity|].
  unfold keys, GlobalExceptionFilter.details_spread. simpl.
  case_bool_decide; reflexivity.
Qed.

(** X8. What the filter keeps from the client.  A thrown value that is
    neither an HttpException nor an Error has no influence on the
    response.  An Error's message is sent in every environment, but
    outside development its name and stack are not: two Errors with the
    same message get the same response. *)
Theorem catch_hides_internals (toISOString : Date -> string)
    (NODE_ENV : option string) (message : string) (host : HttpContext) (w : World) :
  (forall v1 v2 : JValue,
      (GlobalExceptionFilter.catch toISOString NODE_ENV
         (GlobalExceptionFilter.ThrownOther v1) host w).1
      = (GlobalExceptionFilter.catch toISOString NODE_ENV
           (GlobalExceptionFilter.ThrownOther v2) host w).1)
  /\ (forall name stack, exists body,
        sent (GlobalExceptionFilter.catch toISOString NODE_ENV
                (GlobalExceptionFilter.ThrownError name message stack) host w).1
        = Some body
        /\ get_prop "message" body = JStr message)
  /\ (NODE_ENV <> Some "development" ->
      forall name1 name2 stack1 stack2,
        (GlobalExceptionFilter.catch toISOString NODE_ENV
           (GlobalExceptionFilter.ThrownError name1 message stack1) host w).1
        = (GlobalExceptionFilter.catch toISOString NODE_ENV
             (GlobalExceptionFilter.ThrownError name2 message stack2) host w).1).
Proof.
  split; [reflexivity|]. split.
  - intros name stack. rewrite catch_unfold. eexists. split; reflexivity.
  - intros Hoff name1 name2 stack1 stack2. rewrite !catch_unfold. simpl.
    rewrite !(details_spread_off _ _ Hoff). reflexivity.
Qed.

Lemma catch_hides_internals_witness :
  (GlobalExceptionFilter.catch pretty (Some "production")
     (GlobalExceptionFilter.ThrownError "TypeError" "boom" (JStr "at a.ts:1"))
     {| getRequest := {| method := "GET"; url := "/" |};
        getResponse := {| statusCode := 200; sent := None |} |} (ticking 0)).1
  = (GlobalExceptionFilter.catch pretty (Some "production")
       (GlobalExceptionFilter.ThrownError "RangeError" "boom" JUndefined)
       {| getRequest := {| method := "GET"; url := "/" |};
          getResponse := {| statusCode := 200; sent := None |} |} (ticking 0)).1.
Proof.
  apply (catch_hides_internals pretty (Some "production") "boom").
  discriminate.
Defined.



(* ===================================================================== *)
(** * LoggingInterceptor.intercept: what is logged *)
(* ===================================================================== *)

Section InterceptLog.
Import LoggingInterceptor.
Context {A : Type}.
Variable context : HttpContext.
Variable startTime : Z.

Lemma tap_on_next_world (source : Observable A) (w : World) :
  (tap (tap_callback context startTime) source w).2
  = {| w_clock := w_clock w;
       w_reads := w_reads w + length (emitted source);
       w_log := w_log w ++ map (line_at context startTime w) (seq 0 (length (emitted source)));
       w_statusCode := w_statusCode w;
       w_status_reads := w_status_reads w + length (emitted source) |}.
Proof.
  revert w. induction source as [|n rest IH]; intros w.
  - simpl. rewrite !Nat.add_0_r, app_nil_r. destruct w; reflexivity.
  - simpl tap. unfold mbind, M_bind.
    destruct n as [v| |].
    + unfold tap_callback at 1.
      unfold mbind, M_bind, now, read_statusCode, log, log_with. simpl.
      match goal with
      | |- context [tap (tap_callback context startTime) rest ?w1] =>
          specialize (IH w1); destruct (tap (tap_callback context startTime) rest w1) as [rest' w2]
      end.
      simpl in *. rewrite IH. f_equal; [lia| |lia].
      rewrite <- app_assoc. f_equal. simpl. f_equal.
      * unfold line_at. simpl. rewrite !Nat.add_0_r. reflexivity.
      * rewrite <- seq_shift, map_map. apply map_ext. intros i.
        unfold line_at. simpl. rewrite !Nat.add_succ_r. reflexivity.
    + simpl. specialize (IH w). destruct (tap (tap_callback context startTime) rest w) as [rest' w2].
      exact IH.
    + simpl. specialize (IH w). destruct (tap (tap_callback context startTime) rest w) as [rest' w2].
      exact IH.
Qed.

End InterceptLog.

(** The world after [intercept]: one reading of the clock for the start
    time, then one reading of the clock, one of the status and one line
    per emitted value. *)
Lemma intercept_world (A : Type) (context : HttpContext)
    (next : LoggingInterceptor.CallHandler A) (w : World) :
  (LoggingInterceptor.intercept context next w).2
  = {| w_clock := w_clock w;
       w_reads := S (w_reads w)
                  + length (LoggingInterceptor.emitted (LoggingInterceptor.handle next));
       w_log := w_log w
                ++ map (fun i => debug_line context
                                   (w_statusCode w (w_status_reads w + i))
                                   (w_clock w (S (w_reads w) + i) - w_clock w (w_reads w)))
                     (seq 0 (length (LoggingInterceptor.emitted
                                       (LoggingInterceptor.handle next))));
       w_statusCode := w_statusCode w;
       w_status_reads := w_status_reads w
                         + length (LoggingInterceptor.emitted
                                     (LoggingInterceptor.handle next)) |}.
Proof.
  unfold LoggingInterceptor.intercept, mbind, M_bind, now. simpl.
  apply (tap_on_next_world context (w_clock w (w_reads w))
           (LoggingInterceptor.handle next)).
Qed.

(** X10. The interceptor reads the clock once at the start and, for each
    emitted value, reads the clock and the response's status code once;
    for the i-th value it writes the debug line
    "[METHOD] url - status - Nms", the status being the one the response
    has when that value arrives and N that value's clock reading minus the
    start reading.  Error and completion notifications read and write
    nothing. *)
Theorem intercept_log_lines (A : Type) (context : HttpContext)
    (next : LoggingInterceptor.CallHandler A) (w : World) :
  w_reads (LoggingInterceptor.intercept context next w).2
  = (S (w_reads w)
     + length (LoggingInterceptor.emitted (LoggingInterceptor.handle next)))%nat
  /\ w_status_reads (LoggingInterceptor.intercept context next w).2
     = (w_status_reads w
        + length (LoggingInterceptor.emitted (LoggingInterceptor.handle next)))%nat
  /\ w_log (LoggingInterceptor.intercept context next w).2
     = (w_log w
        ++ map (fun i => debug_line context
                           (w_statusCode w (w_status_reads w + i))
                           (w_clock w (S (w_reads w) + i) - w_clock w (w_reads w)))
             (seq 0 (length (LoggingInterceptor.emitted
                               (LoggingInterceptor.handle next)))))%list.
Proof. rewrite intercept_world. repeat split. Qed.

(** A list built index by index is the indexed map of its second
    components. *)
Lemma map_seq_imap_from {B : Type} (g : nat -> Z) (n : nat) :
  forall (f : nat -> Z -> B) (b : nat),
    map (fun i => f (i - b)%nat (g i)) (seq b n) = imap f (map g (seq b n)).
Proof.
  induction n as [|n IH]; intros f b; [reflexivity|].
  simpl. rewrite Nat.sub_diag. f_equal.
  rewrite <- (IH (f ∘ S) (S b)).
  apply map_ext_in. intros i Hi%in_seq. unfold compose. f_equal. lia.
Qed.

Lemma map_seq_imap {B : Type} (f : nat -> Z -> B) (g : nat -> Z) (n : nat) :
  map (fun i => f i (g i)) (seq 0 n) = imap f (map g (seq 0 n)).
Proof.
  rewrite <- (map_seq_imap_from g n f 0). apply map_ext. intros i.
  by rewrite Nat.sub_0_r.
Qed.

(** X11. On a clock that never runs backwards no logged duration is
    negative. *)
Theorem intercept_durations_nonnegative (A : Type) (context : HttpContext)
    (next : LoggingInterceptor.CallHandler A) (w : World) :
  (forall i j : nat, (i <= j)%nat -> w_clock w i <= w_clock w j) ->
  exists durations,
    w_log (LoggingInterceptor.intercept context next w).2
    = (w_log w
       ++ imap (fun i => debug_line context (w_statusCode w (w_status_reads w + i)))
            durations)%list
    /\ length durations
       = length (LoggingInterceptor.emitted (LoggingInterceptor.handle next))
    /\ Forall (fun d => 0 <= d) durations.
Proof.
  intros Hmono. rewrite intercept_world. simpl.
  set (k := length (LoggingInterceptor.emitted (LoggingInterceptor.handle next))).
  exists (map (fun i => w_clock w (S (w_reads w) + i) - w_clock w (w_reads w)) (seq 0 k)).
  split; [|split].
  - f_equal. apply (map_seq_imap (fun i => debug_line context
                                              (w_statusCode w (w_status_reads w + i)))).
  - by rewrite length_map, length_seq.
  - apply Forall_map, Forall_forall. intros i _.
    pose proof (Hmono (w_reads w) (S (w_reads w) + i)%nat ltac:(lia)) as Hle.
    simpl in *. lia.
Qed.

Lemma intercept_durations_nonnegative_witness :
  exists durations,
    w_log (LoggingInterceptor.intercept
             {| getRequest := {| method := "GET"; url := "/health" |};
                getResponse := {| statusCode := 200; sent := None |} |}
             {| LoggingInterceptor.handle :=
                  [LoggingInterceptor.Next (JStr "ok"); LoggingInterceptor.Complete] |}
             (ticking 1000)).2
    = imap (fun i => debug_line
                       {| getRequest := {| method := "GET"; url := "/health" |};
                          getResponse := {| statusCode := 200; sent := None |} |}
                       200) durations
    /\ Forall (fun d => 0 <= d) durations.
Proof.
  destruct (intercept_durations_nonnegative JValue
              {| getRequest := {| method := "GET"; url := "/health" |};
                 getResponse := {| statusCode := 200; sent := None |} |}
              {| LoggingInterceptor.handle :=
                   [LoggingInterceptor.Next (JStr "ok"); LoggingInterceptor.Complete] |}
              (ticking 1000))
    as (durations & Hlog & _ & Hpos).
  - intros i j Hij. simpl. lia.
  - exists durations. split; [exact Hlog | exact Hpos].
Defined.

(* ===================================================================== *)
(** * The entities: further properties *)
(* ===================================================================== *)

(** X12. FeeTier has exactly the four members STANDARD, HIGH_VOLUME, VIP
    and PROMOTIONAL, stored under four distinct strings, all of them
    listed in the column's enum; STANDARD is the tier of every newly
    constructed FeeTransaction and the column's declared default. *)
Theorem FeeTier_four_values_STANDARD_initial :
  (forall t : FeeTier, t ∈ FeeTier_values)
  /\ NoDup (map FeeTier_value FeeTier_values)
  /\ (forall w : World, feeTier (fresh w) = STANDARD)
  /\ exists o, column_options "feeTier" FeeTransaction_properties = Some o
       /\ col_default o = Some (JStr (FeeTier_value STANDARD))
       /\ forall t : FeeTier, col_type o = TEnum (map FeeTier_value FeeTier_values)
                              /\ FeeTier_value t ∈ map FeeTier_value FeeTier_values.
Proof.
  split; [intros []; unfold FeeTier_values; set_solver|].
  split; [apply (bool_decide_unpack _); vm_compute; exact I|].
  split; [reflexivity|].
  eexists. split; [reflexivity|]. split; [reflexivity|].
  intros t. split; [reflexivity|]. destruct t; simpl; set_solver.
Qed.

(** X13. Wherever a column of FeeTransaction declares a default, the
    property's initialiser gives a newly constructed record that same
    value: the object built in code and the row the database would fill
    in agree. *)
Theorem FeeTransaction_initialisers_match_defaults (w : World) (name : string)
    (o : ColumnOptions) (d : JValue) :
  column_options name FeeTransaction_properties = Some o ->
  col_default o = Some d ->
  get_prop name (defaulted_properties (fresh w)) = d.
Proof.
  unfold column_options, find_property. cbn -[String.eqb].
  repeat match goal with
         | |- context [String.eqb ?k name] =>
             destruct (String.eqb k name) eqn:Hname;
             [ apply String.eqb_eq in Hname; subst name;
               try discriminate;
               intros [= <-]; cbn -[String.eqb]; try discriminate;
               intros [= <-]; reflexivity
             | clear Hname ]
         end.
  discriminate.
Qed.

Lemma FeeTransaction_initialisers_match_defaults_witness :
  get_prop "retryCount" (defaulted_properties (fresh (ticking 0))) = JNum 0.
Proof.
  eapply (FeeTransaction_initialisers_match_defaults (ticking 0) "retryCount");
    reflexivity.
Defined.

Section UserSaves.
Import Storage.

Lemma taken_snoc name v table row :
  row !! name = Some v -> taken name v (table ++ [row]) = true.
Proof.
  intros Hrow. unfold taken. rewrite existsb_app. simpl.
  rewrite (bool_decide_eq_true_2 _ Hrow). by rewrite orb_true_r.
Qed.

End UserSaves.

(** X14. A User is saved only with a username and a wallet address, and
    what is stored is what was handed in: the username and the wallet
    address as given, the bio as given or NULL, the reputation score as
    given or 0. *)
Theorem User_save_stores_what_was_given (table : list (gmap string Storage.Cell))
    (e : gmap string Storage.Cell) (table' : list (gmap string Storage.Cell)) :
  Storage.insert User_properties table e = inr table' ->
  exists row,
    table' = (table ++ [row])%list
    /\ is_Some (e !! "username") /\ is_Some (e !! "wallet_address")
    /\ row !! "username" = e !! "username"
    /\ row !! "wallet_address" = e !! "wallet_address"
    /\ row !! "bio" = Some (default Storage.CNull (e !! "bio"))
    /\ row !! "reputation_score"
       = Some (default (Storage.CNum 0) (e !! "reputation_score")).
Proof.
  unfold Storage.insert.
  destruct (Storage.build_row User_properties table e) as [|row] eqn:Hrow;
    [discriminate|].
  intros [= <-]. exists row. split; [reflexivity|].
  apply build_row_User_cells in Hrow
    as (vu & vw & Hu & _ & _ & Hw & _ & _ & _ & ->).
  rewrite Hu, Hw. repeat split; eauto; by simplify_map_eq.
Qed.

Lemma User_save_stores_what_was_given_witness :
  exists row,
    Storage.insert User_properties [] alice = inr [row]
    /\ row !! "username" = Some (Storage.CStr "alice")
    /\ row !! "bio" = Some Storage.CNull.
Proof.
  destruct (Storage.insert User_properties [] alice) as [err|table'] eqn:Hins.
  { vm_compute in Hins. discriminate Hins. }
  destruct (User_save_stores_what_was_given [] alice table' Hins)
    as (row & -> & _ & _ & Hu & _ & Hb & _).
  exists row. split; [reflexivity|]. split; [exact Hu | exact Hb].
Defined.

(** X15. A User left without a username or without a wallet address, or
    given NULL for one, is not saved: the save fails on the NOT NULL
    constraint and names the column (the username first), whatever the
    table holds. *)
Theorem User_save_requires_username_and_wallet (table : list (gmap string Storage.Cell))
    (e : gmap string Storage.Cell) :
  (e !! "username" = None \/ e !! "username" = Some Storage.CNull ->
   Storage.insert User_properties table e
   = inl (Storage.NotNullViolation "username"))
  /\ (forall u, e !! "username" = Some u -> u <> Storage.CNull ->
        e !! "wallet_address" = None \/ e !! "wallet_address" = Some Storage.CNull ->
        Storage.insert User_properties table e
        = inl (Storage.NotNullViolation "wallet_address")).
Proof.
  split.
  - intros [H | H]; unfold Storage.insert, Storage.build_row; simpl;
      unfold Storage.column_value; rewrite H; reflexivity.
  - intros u Hu Hun Hw. unfold Storage.insert, Storage.build_row. simpl.
    unfold Storage.column_value. rewrite Hu. simpl.
    replace (match u with
             | Storage.CNull => inl (Storage.NotNullViolation "username")
             | _ => inr u
             end)
      with (@inr Storage.StorageError Storage.Cell u) by (destruct u; done).
    destruct Hw as [H | H]; rewrite H; reflexivity.
Qed.

Lemma User_save_requires_username_and_wallet_witness :
  exists table,
    Storage.insert User_properties [] alice = inr table
    /\ Storage.insert User_properties table
         {[ "username" := Storage.CStr "alice" ]}
       = inl (Storage.NotNullViolation "wallet_address").
Proof.
  destruct (Storage.insert User_properties [] alice) as [err|table] eqn:Hins.
  { vm_compute in Hins. discriminate Hins. }
  exists table. split; [reflexivity|].
  apply (proj2 (User_save_requires_username_and_wallet table
                  {[ "username" := Storage.CStr "alice" ]})
           (Storage.CStr "alice")).
  - reflexivity.
  - discriminate.
  - left. reflexivity.
Defined.

Section UserDuplicates.
Import Storage.

(** A User with its required fields passes the NOT NULL checks. *)
Lemma row_cells_User_ok e vu vw :
  e !! "username" = Some vu -> vu <> CNull ->
  e !! "wallet_address" = Some vw -> vw <> CNull ->
  e !! "reputation_score" <> Some CNull ->
  exists row, row_cells User_properties e = inr row
              /\ row !! "username" = Some vu /\ row !! "wallet_address" = Some vw.
Proof.
  intros Hu Hun Hw Hwn Hr. simpl. unfold column_value. rewrite Hu, Hw. simpl.
  replace (match vu with CNull => inl (NotNullViolation "username") | _ => inr vu end)
    with (@inr StorageError Cell vu) by (destruct vu; done).
  replace (match vw with CNull => inl (NotNullViolation "wallet_address") | _ => inr vw end)
    with (@inr StorageError Cell vw) by (destruct vw; done).
  destruct (e !! "bio") as [[]|], (e !! "reputation_score") as [[]|];
    try done; eexists; (split; [reflexivity|]); by simplify_map_eq.
Qed.

End UserDuplicates.

(** X16. Once a User is saved, a new User that asks for the same username
    (and has its own required fields) is refused with a unique violation
    on the username. *)
Theorem User_duplicate_username_refused (table : list (gmap string Storage.Cell))
    (e : gmap string Storage.Cell) (table' : list (gmap string Storage.Cell))
    (newcomer : gmap string Storage.Cell) (wallet : Storage.Cell) :
  Storage.insert User_properties table e = inr table' ->
  newcomer !! "username" = e !! "username" ->
  newcomer !! "wallet_address" = Some wallet -> wallet <> Storage.CNull ->
  newcomer !! "reputation_score" <> Some Storage.CNull ->
  Storage.insert User_properties table' newcomer
  = inl (Storage.UniqueViolation "username").
Proof.
  unfold Storage.insert at 1.
  destruct (Storage.build_row User_properties table e) as [|row] eqn:Hrow;
    [discriminate|].
  intros [= <-] Hsame Hw Hwn Hr.
  apply build_row_User_cells in Hrow
    as (vu & vw & Hu & Hun & _ & _ & _ & _ & _ & ->).
  rewrite Hu in Hsame.
  destruct (row_cells_User_ok newcomer vu wallet Hsame Hun Hw Hwn Hr)
    as (row2 & Hcells & Hu2 & Hw2).
  unfold Storage.insert, Storage.build_row. rewrite Hcells.
  rewrite (unique_conflict_User _ _ vu wallet Hu2 Hun Hw2 Hwn).
  rewrite taken_snoc by (by simplify_map_eq). reflexivity.
Qed.

Lemma User_duplicate_username_refused_witness :
  exists table,
    Storage.insert User_properties [] alice = inr table
    /\ Storage.insert User_properties table mallory
       = inl (Storage.UniqueViolation "username").
Proof.
  destruct (Storage.insert User_properties [] alice) as [err|table] eqn:Hins.
  { vm_compute in Hins. discriminate Hins. }
  exists table. split; [reflexivity|].
  apply (User_duplicate_username_refused [] alice table mallory
           (Storage.CStr "GMALLORY") Hins); [reflexivity | reflexivity | discriminate |].
  intros Hnull. vm_compute in Hnull. discriminate Hnull.
Defined.

(** X17. The configuration depends on eight environment variables only:
    setting or removing any other variable leaves every setting as it
    was. *)
Theorem appConfig_reads_eight_variables (env : gmap string string) (name : string)
    (value : option string) :
  name ∉ AppConfig.variables_read ->
  AppConfig.appConfig (partial_alter (fun _ => value) name env)
  = AppConfig.appConfig env.
Proof.
  intros Hother. unfold AppConfig.variables_read in Hother.
  unfold AppConfig.appConfig.
  rewrite !lookup_partial_alter_ne by (intros ->; apply Hother; repeat constructor).
  reflexivity.
Qed.

Lemma appConfig_reads_eight_variables_witness :
  AppConfig.appConfig (partial_alter (fun _ => Some "postgres") "DATABASE_HOST"
                         {[ "PORT" := "8080" ]})
  = AppConfig.appConfig {[ "PORT" := "8080" ]}.
Proof.
  apply (appConfig_reads_eight_variables {[ "PORT" := "8080" ]} "DATABASE_HOST"
           (Some "postgres")).
  unfold AppConfig.variables_read. intros Hin.
  repeat (apply elem_of_cons in Hin as [Hin | Hin]; [discriminate Hin|]).
  by apply elem_of_nil in Hin.
Defined.
